(** * BalatroBot: game objects and search-tree states

    A shallow embedding of [BalatroObjects.py] and [GameStates.py].

    Conventions of the embedding.
    - A Python [int] is a [Z].  A Python [float] is the rational it
      denotes ([Qc], canonical fractions): every float literal of the
      source ([0.0], [1.0] ... [7.0]) is such a number.  [num] keeps the
      int/float distinction of a Python number.  An operator that mixes
      an int with a float converts the int first and raises
      [OverflowError] when no double can hold it, as does the true
      division of two ints whose quotient no double can hold.  The
      rounding of a float result to the nearest double is outside this
      model: statements about float results are made through the
      operators.
    - An instance is a record of the attributes its [__init__] binds.
    - A method is a computation in the monad [M St]: it reads and writes
      the object of type [St] it mutates, appends to standard output,
      draws from the random source, and either returns or raises.
    - A class is a [Module]; its methods keep their Python names. *)

From Stdlib Require Import ZArith QArith Qcanon.
From stdpp Require Import base gmap strings list numbers.

Open Scope Z_scope.

(** ** Numbers *)

Abbreviation float := Qc.

Inductive num : Type :=
  | PyInt (z : Z)
  | PyFloat (q : float).

Definition to_float (n : num) : float :=
  match n with
  | PyInt z => Qc_of_Z z
  | PyFloat q => q
  end.

(** [a * b], for the products of the source, whose right operand is the
    int literal [2] or [10]: such a product does not raise. *)
Definition num_mul (a b : num) : num :=
  match a, b with
  | PyInt x, PyInt y => PyInt (x * y)
  | _, _ => PyFloat (to_float a * to_float b)
  end.

(** [a <= b] on numbers.  Python compares an int with a float by exact
    value, so every such comparison is the order of the rationals. *)
Definition num_le (a b : num) : Prop := (to_float a ≤ to_float b)%Qc.

(** [a >= b] *)
Definition num_ge (a b : num) : Prop := num_le b a.

#[global] Instance num_le_dec : RelDecision num_le.
Proof. intros a b. unfold num_le. apply _. Defined.

#[global] Instance num_ge_dec : RelDecision num_ge.
Proof. intros a b. unfold num_ge. apply _. Defined.

(** ** Exceptions, output and the method monad *)

Inductive exn : Type :=
  | ValueError (msg : string)
  | NotImplementedError (msg : string)
  | ZeroDivisionError
  | OverflowError
  | IndexError
  | KeyError (key : string)
  | AttributeError (attr : string).

Inductive res (A : Type) : Type :=
  | Ok (a : A)
  | Raise (e : exn).
Arguments Ok {A} a.
Arguments Raise {A} e.

#[global] Instance res_ret : MRet res := λ A a, Ok a.

#[global] Instance res_bind : MBind res := λ A B f r,
  match r with
  | Ok a => f a
  | Raise e => Raise e
  end.

(** An int converts to a double when its magnitude is below
    [2^1024 - 2^970], the midpoint between the largest double and
    [2^1024]; from there on the conversion raises [OverflowError]. *)
Definition float_range : Z := 2 ^ 1024 - 2 ^ 970.
Arguments float_range : simpl never.

(** [float(z)] as the mixed operators apply it to an int operand. *)
Definition int_to_float (z : Z) : res float :=
  if Z.abs z <? float_range then Ok (Qc_of_Z z) else Raise OverflowError.

(** [a + b]: int + int is an int; otherwise an int operand is converted
    and the sum is a float. *)
Definition num_add (a b : num) : res num :=
  match a, b with
  | PyInt x, PyInt y => Ok (PyInt (x + y))
  | PyInt x, PyFloat q => p ← int_to_float x; Ok (PyFloat (p + q))
  | PyFloat p, PyInt y => q ← int_to_float y; Ok (PyFloat (p + q))
  | PyFloat p, PyFloat q => Ok (PyFloat (p + q))
  end.

(** [p / q] on floats. *)
Definition float_truediv (p q : float) : res num :=
  if bool_decide (q = 0%Qc) then Raise ZeroDivisionError
  else Ok (PyFloat (p / q)).

(** [a / b] (true division): always a float.  Two ints are divided
    exactly and the quotient rounded once, which raises
    [OverflowError] when it reaches [float_range]; otherwise an int
    operand is converted first. *)
Definition num_truediv (a b : num) : res num :=
  match a, b with
  | PyInt x, PyInt y =>
      if y =? 0 then Raise ZeroDivisionError
      else if Z.abs x <? float_range * Z.abs y
           then Ok (PyFloat (Qc_of_Z x / Qc_of_Z y))
           else Raise OverflowError
  | PyInt x, PyFloat q => p ← int_to_float x; float_truediv p q
  | PyFloat p, PyInt y => q ← int_to_float y; float_truediv p q
  | PyFloat p, PyFloat q => float_truediv p q
  end.

(** A printed line is the f-string it was built from: literal text and
    the interpolated values, in order. *)
Inductive frag : Type :=
  | Lit (s : string)
  | Num (n : num)
  | Str (s : string).

Definition line : Type := list frag.

(** The part of the interpreter state a method can touch: the object it
    mutates, standard output (oldest line first), and the pending draws
    of the [random] module. *)
Record World (St : Type) : Type := mkWorld {
  target : St;
  stdout : list line;
  rng : nat → nat
}.
Arguments mkWorld {St} target stdout rng.
Arguments target {St} w.
Arguments stdout {St} w.
Arguments rng {St} w.

Definition M (St A : Type) : Type := World St → res A * World St.

#[global] Instance M_ret {St} : MRet (M St) := λ A a w, (Ok a, w).

#[global] Instance M_bind {St} : MBind (M St) := λ A B f m w,
  match m w with
  | (Ok a, w') => f a w'
  | (Raise e, w') => (Raise e, w')
  end.

Definition get {St} : M St St := λ w, (Ok (target w), w).

Definition put {St} (s : St) : M St unit :=
  λ w, (Ok tt, mkWorld s (stdout w) (rng w)).

Definition modify {St} (f : St → St) : M St unit :=
  λ w, (Ok tt, mkWorld (f (target w)) (stdout w) (rng w)).

Definition raise {St A} (e : exn) : M St A := λ w, (Raise e, w).

Definition lift {St A} (r : res A) : M St A := λ w, (r, w).

Definition emit {St} (l : line) : M St unit :=
  λ w, (Ok tt, mkWorld (target w) (stdout w ++ [l]) (rng w)).

(** [random._randbelow(n)] for [n > 0]: the next draw, reduced below [n]. *)
Definition randbelow {St} (n : nat) : M St nat :=
  λ w, (Ok (rng w 0%nat `mod` n)%nat,
        mkWorld (target w) (stdout w) (λ i, rng w (S i))).

(** [random.choice(seq)] *)
Definition random_choice {St A} (seq : list A) : M St A :=
  match seq with
  | [] => raise IndexError
  | _ :: _ =>
      i ← randbelow (length seq);
      match seq !! i with
      | Some x => mret x
      | None => raise IndexError
      end
  end.

(** [for x in xs: body(x)] *)
Fixpoint for_each {St A} (xs : list A) (body : A → M St unit) : M St unit :=
  match xs with
  | [] => mret tt
  | x :: xs' => body x;; for_each xs' body
  end.

(** [obj.attr] for an attribute bound by a base-class initialiser:
    [AttributeError] when that initialiser never ran on the object. *)
Definition getattr {St B A} (attr : string) (inherited : option B)
    (field : B → A) : M St A :=
  match inherited with
  | Some b => mret (field b)
  | None => raise (AttributeError attr)
  end.

(** Run a method of a component object inside a larger state. *)
Definition focus {St T A} (proj : St → T) (upd : T → St → St) (m : M T A) : M St A :=
  λ w,
    let '(r, w') := m (mkWorld (proj (target w)) (stdout w) (rng w)) in
    (r, mkWorld (upd (target w') (target w)) (stdout w') (rng w')).

(** [n] successive calls of a method. *)
Fixpoint repeat_call {St} (n : nat) (m : M St unit) : M St unit :=
  match n with
  | O => mret tt
  | S n' => m;; repeat_call n' m
  end.

(** ** The ledger

    The object that effects, rules and consumables mutate (their
    [player] / [game_state] argument): the numeric fields the source
    reads and writes on it. *)
Module Ledger.

Record t : Type := mk {
  chips : num;
  multiplier : num;
  base_multiplier : num;
  hand_size : num;
  double_bet : bool;
  rerolls_remaining : num;
  shop_discount : num;
  shop_slots : num
}.

Definition set_chips (v : num) (g : t) : t :=
  mk v (multiplier g) (base_multiplier g) (hand_size g) (double_bet g)
     (rerolls_remaining g) (shop_discount g) (shop_slots g).

Definition set_multiplier (v : num) (g : t) : t :=
  mk (chips g) v (base_multiplier g) (hand_size g) (double_bet g)
     (rerolls_remaining g) (shop_discount g) (shop_slots g).

Definition set_base_multiplier (v : num) (g : t) : t :=
  mk (chips g) (multiplier g) v (hand_size g) (double_bet g)
     (rerolls_remaining g) (shop_discount g) (shop_slots g).

Definition set_rerolls_remaining (v : num) (g : t) : t :=
  mk (chips g) (multiplier g) (base_multiplier g) (hand_size g) (double_bet g)
     v (shop_discount g) (shop_slots g).

Definition set_shop_discount (v : num) (g : t) : t :=
  mk (chips g) (multiplier g) (base_multiplier g) (hand_size g) (double_bet g)
     (rerolls_remaining g) v (shop_slots g).

Definition set_shop_slots (v : num) (g : t) : t :=
  mk (chips g) (multiplier g) (base_multiplier g) (hand_size g) (double_bet g)
     (rerolls_remaining g) (shop_discount g) v.

Definition set_hand_size (v : num) (g : t) : t :=
  mk (chips g) (multiplier g) (base_multiplier g) v (double_bet g)
     (rerolls_remaining g) (shop_discount g) (shop_slots g).

Definition set_double_bet (v : bool) (g : t) : t :=
  mk (chips g) (multiplier g) (base_multiplier g) (hand_size g) v
     (rerolls_remaining g) (shop_discount g) (shop_slots g).

End Ledger.

(** [game_state.field += value]: read the field, add, store the sum;
    nothing is stored when the addition raises. *)
Definition iadd (field : Ledger.t → num) (set_field : num → Ledger.t → Ledger.t)
    (value : num) : M Ledger.t unit :=
  game_state ← get;
  total ← lift (num_add (field game_state) value);
  put (set_field total game_state).

(** ** [class Effect] *)
Module Effect.

Record t : Type := mk {
  effect_type : string;
  value : option num
}.

Definition __init__ (effect_type : string) (value : option num) : t :=
  mk effect_type value.

Definition apply (self : t) : M Ledger.t unit :=
  match bool_decide (effect_type self = "increase_chips"), value self with
  | true, Some v =>
      iadd Ledger.chips Ledger.set_chips v;;
      emit [Num v; Lit " chips added!"]
  | _, _ =>
      if bool_decide (effect_type self = "double_bet") then
        modify (Ledger.set_double_bet true);;
        emit [Lit "Bet will be doubled!"]
      else if bool_decide (effect_type self = "swap_cards") then
        emit [Lit "Cards swapped!"]
      else
        emit [Lit "Unknown effect: "; Str (effect_type self)]
  end.

End Effect.

(** ** [class Card] *)
Module Card.

Record t : Type := mk {
  name : string;
  suit : string;
  chip_value : Z;
  effects : list Effect.t
}.

Definition __init__ (name suit : string) (chip_value : Z)
    (effects : option (list Effect.t)) : t :=
  mk name suit chip_value (default [] effects).

Definition apply_effects (self : t) : M Ledger.t unit :=
  for_each (effects self) Effect.apply.

End Card.

(** ** [class BalatroDeck]

    [special_rules] is a dict iterated in insertion order: the list of
    its items. *)
Module BalatroDeck.

Record t : Type := mk {
  name : string;
  description : string;
  num_cards : Z;
  joker_slots : Z;
  consumable_slots : Z;
  special_rules : list (string * num)
}.

Definition __init__ (name description : string)
    (num_cards joker_slots consumable_slots : Z)
    (special_rules : option (list (string * num))) : t :=
  mk name description num_cards joker_slots consumable_slots
     (default [] special_rules).

Definition apply_special_rules (self : t) : M Ledger.t unit :=
  for_each (special_rules self) (λ '(rule, value),
    if bool_decide (rule = "bonus_chips") then
      iadd Ledger.chips Ledger.set_chips value;;
      emit [Str (name self); Lit ": +"; Num value;
            Lit " bonus chips applied!"]
    else if bool_decide (rule = "extra_multiplier") then
      iadd Ledger.base_multiplier Ledger.set_base_multiplier value;;
      emit [Str (name self); Lit ": Base multiplier increased by ";
            Num value; Lit "x!"]
    else if bool_decide (rule = "reroll_bonus") then
      iadd Ledger.rerolls_remaining Ledger.set_rerolls_remaining value;;
      emit [Str (name self); Lit ": +"; Num value;
            Lit " additional rerolls!"]
    else
      emit [Str (name self); Lit ": Unknown rule '"; Str rule;
            Lit "' - No action taken."]).

End BalatroDeck.

(** ** [class Hand] *)
Module Hand.

Definition HAND_BASE_MULTIPLIERS : gmap string float :=
  list_to_map [
    ("High Card", Q2Qc 1.0);
    ("Pair", Q2Qc 1.5);
    ("Two Pair", Q2Qc 2.0);
    ("Three of a Kind", Q2Qc 2.5);
    ("Straight", Q2Qc 3.0);
    ("Flush", Q2Qc 3.5);
    ("Full House", Q2Qc 4.0);
    ("Four of a Kind", Q2Qc 5.0);
    ("Straight Flush", Q2Qc 7.0)
  ].

Definition HAND_BASE_CHIPS : gmap string Z :=
  list_to_map [
    ("High Card", 5);
    ("Pair", 10);
    ("Two Pair", 15);
    ("Three of a Kind", 20);
    ("Straight", 30);
    ("Flush", 40);
    ("Full House", 50);
    ("Four of a Kind", 75);
    ("Straight Flush", 100);
    ("Royal Flush", 150)
  ].

Record t : Type := mk {
  name : string;
  cards : list Card.t;
  level : Z;
  base_chips : Z;
  base_multiplier : float
}.

Definition set_level (v : Z) (h : t) : t :=
  mk (name h) (cards h) v (base_chips h) (base_multiplier h).

(** The constructor either returns the new hand or raises; the
    subscript [HAND_BASE_CHIPS[name]] raises [KeyError] on a missing key. *)
Definition __init__ (name : string) (cards : list Card.t) : res t :=
  match HAND_BASE_MULTIPLIERS !! name with
  | None => Raise (ValueError ("Invalid hand name: " +:+ name))
  | Some m =>
      match HAND_BASE_CHIPS !! name with
      | None => Raise (KeyError name)
      | Some c => Ok (mk name cards 1 c m)
      end
  end.

Definition calculate_chips : M t Z :=
  self ← get;
  mret (base_chips self * level self).

Definition calculate_multiplier : M t float :=
  self ← get;
  mret (base_multiplier self * Qc_of_Z (level self))%Qc.

Definition level_up : M t unit :=
  modify (λ self, set_level (level self + 1) self);;
  self ← get;
  emit [Str (name self); Lit " leveled up to Level ";
        Num (PyInt (level self)); Lit "!"].

End Hand.

(** ** [class JokerCard] *)
Module JokerCard.

Record t : Type := mk {
  name : string;
  effect_type : string;
  effect_description : string;
  rarity : string;
  value : num;
  unlock_condition : string;
  is_active : bool;
  synergy_tags : list string;
  limited_uses : option Z;
  permanent : bool
}.

Definition __init__ (name effect_type effect_description rarity : string)
    (value : num) (unlock_condition : string) : t :=
  mk name effect_type effect_description rarity value unlock_condition
     true [] None true.

End JokerCard.

(** ** [class Voucher] *)
Module Voucher.

Record t : Type := mk {
  name : string;
  cost : num;
  description : string;
  rarity : string;
  effect_type : string;
  effect_value : num
}.

Definition __init__ (name : string) (cost : num) (description rarity : string)
    (effect_type : string) (effect_value : num) : t :=
  mk name cost description rarity effect_type effect_value.

Definition apply_effect (self : t) : M Ledger.t unit :=
  if bool_decide (effect_type self = "Discount") then
    iadd Ledger.shop_discount Ledger.set_shop_discount (effect_value self);;
    emit [Str (name self); Lit " applied: Shop items cost ";
          Num (effect_value self); Lit "% less."]
  else if bool_decide (effect_type self = "Reroll Bonus") then
    iadd Ledger.rerolls_remaining Ledger.set_rerolls_remaining
      (effect_value self);;
    emit [Str (name self); Lit " applied: +"; Num (effect_value self);
          Lit " rerolls."]
  else if bool_decide (effect_type self = "Shop Slots") then
    iadd Ledger.shop_slots Ledger.set_shop_slots (effect_value self);;
    emit [Str (name self); Lit " applied: +"; Num (effect_value self);
          Lit " shop slots."]
  else if bool_decide (effect_type self = "Bonus Chips") then
    iadd Ledger.chips Ledger.set_chips (effect_value self);;
    emit [Str (name self); Lit " applied: +"; Num (effect_value self);
          Lit " chips."]
  else
    emit [Lit "Unknown effect type: "; Str (effect_type self)].

End Voucher.

(** ** [class Consumable] and its subclasses

    [inherited] holds the attributes bound by the base-class initialiser;
    it is [Some] exactly when that initialiser has run on the object.
    The three subclasses call [super().__init__]. *)
Module Consumable.

Record t : Type := mk {
  name : string;
  cost : num;
  description : string;
  rarity : string
}.

Definition __init__ (name : string) (cost : num) (description rarity : string) : t :=
  mk name cost description rarity.

Definition apply_effect (self : t) : M Ledger.t unit :=
  raise (NotImplementedError "Each consumable card must implement its own effect.").

End Consumable.

Module TarotCard.

Record t : Type := mk {
  inherited : option Consumable.t;
  buff_type : string;
  buff_value : num
}.

Definition __init__ (name : string) (cost : num) (description rarity : string)
    (buff_type : string) (buff_value : num) : t :=
  mk (Some (Consumable.__init__ name cost description rarity))
     buff_type buff_value.

Definition apply_effect (self : t) : M Ledger.t unit :=
  (if bool_decide (buff_type self = "Multiplier") then
     iadd Ledger.multiplier Ledger.set_multiplier (buff_value self)
   else if bool_decide (buff_type self = "Chips") then
     iadd Ledger.chips Ledger.set_chips (buff_value self)
   else if bool_decide (buff_type self = "Hand Size") then
     iadd Ledger.hand_size Ledger.set_hand_size (buff_value self)
   else mret tt);;
  name ← getattr "name" (inherited self) Consumable.name;
  emit [Str name; Lit " applied: "; Str (buff_type self);
        Lit " increased by "; Num (buff_value self); Lit "."].

End TarotCard.

Module PlanetCard.

Record t : Type := mk {
  inherited : option Consumable.t;
  special_effect : string
}.

Definition __init__ (name : string) (cost : num) (description rarity : string)
    (special_effect : string) : t :=
  mk (Some (Consumable.__init__ name cost description rarity)) special_effect.

Definition apply_effect (self : t) : M Ledger.t unit :=
  (if bool_decide (special_effect self = "Double Multiplier") then
     modify (λ g, Ledger.set_multiplier
                    (num_mul (Ledger.multiplier g) (PyInt 2)) g)
   else if bool_decide (special_effect self = "Double Chips") then
     modify (λ g, Ledger.set_chips (num_mul (Ledger.chips g) (PyInt 2)) g)
   else mret tt);;
  name ← getattr "name" (inherited self) Consumable.name;
  emit [Str name; Lit " applied: "; Str (special_effect self); Lit "."].

End PlanetCard.

Module SpectralCard.

Record t : Type := mk {
  inherited : option Consumable.t;
  duration : Z;
  effect_function : M Ledger.t unit
}.

Definition __init__ (name : string) (cost : num) (description rarity : string)
    (duration : Z) (effect_function : M Ledger.t unit) : t :=
  mk (Some (Consumable.__init__ name cost description rarity))
     duration effect_function.

Definition apply_effect (self : t) : M Ledger.t unit :=
  effect_function self;;
  name ← getattr "name" (inherited self) Consumable.name;
  emit [Str name; Lit " applied: Effect active for ";
        Num (PyInt (duration self)); Lit " turns."].

End SpectralCard.

(** ** [class BossBlinds] *)
Module BossBlinds.

(** [special_rules] is a dict iterated in insertion order: the list of
    its items. *)
Record t : Type := mk {
  small_blind : Z;
  big_blind : Z;
  escalation_rate : Z;
  max_blind_cap : Z;
  difficulty_level : Z;
  special_rules : list (string * num);
  round_counter : Z;
  boss_mode_active : bool
}.

Definition set_small_blind (v : Z) (b : t) : t :=
  mk v (big_blind b) (escalation_rate b) (max_blind_cap b)
     (difficulty_level b) (special_rules b) (round_counter b)
     (boss_mode_active b).

Definition set_big_blind (v : Z) (b : t) : t :=
  mk (small_blind b) v (escalation_rate b) (max_blind_cap b)
     (difficulty_level b) (special_rules b) (round_counter b)
     (boss_mode_active b).

Definition set_round_counter (v : Z) (b : t) : t :=
  mk (small_blind b) (big_blind b) (escalation_rate b) (max_blind_cap b)
     (difficulty_level b) (special_rules b) v (boss_mode_active b).

Definition set_boss_mode_active (v : bool) (b : t) : t :=
  mk (small_blind b) (big_blind b) (escalation_rate b) (max_blind_cap b)
     (difficulty_level b) (special_rules b) (round_counter b) v.

(** [difficulty_level=1] and [special_rules=None] are the defaults of
    the two optional arguments. *)
Definition __init__ (small_blind big_blind escalation_rate max_blind_cap : Z)
    (difficulty_level : option Z)
    (special_rules : option (list (string * num))) : t :=
  mk small_blind big_blind escalation_rate max_blind_cap
     (default 1 difficulty_level) (default [] special_rules) 0 false.

Definition activate_boss_mode : M t unit :=
  modify (set_boss_mode_active true);;
  emit [Lit "Boss Blinds Mode activated!"].

Definition deactivate_boss_mode : M t unit :=
  modify (set_boss_mode_active false);;
  emit [Lit "Boss Blinds Mode deactivated!"].

Definition increase_boss_blinds : M t unit :=
  self ← get;
  if boss_mode_active self then
    modify (λ self, set_round_counter (round_counter self + 1) self);;
    self ← get;
    if round_counter self >=? difficulty_level self * escalation_rate self then
      modify (λ self, set_small_blind
                (Z.min (small_blind self + 5) (max_blind_cap self)) self);;
      modify (λ self, set_big_blind
                (Z.min (big_blind self + 5) (max_blind_cap self)) self);;
      modify (set_round_counter 0);;
      self ← get;
      emit [Lit "Boss Blinds increased! New Small Blind: ";
            Num (PyInt (small_blind self)); Lit ", New Big Blind: ";
            Num (PyInt (big_blind self))]
    else mret tt
  else mret tt.

Definition apply_boss_rules (self : t) : M Ledger.t unit :=
  for_each (special_rules self) (λ '(rule, value),
    if bool_decide (rule = "bonus_chips") then
      iadd Ledger.chips Ledger.set_chips value;;
      emit [Lit "Boss Mode: +"; Num value; Lit " bonus chips applied!"]
    else if bool_decide (rule = "double_bet") then
      modify (Ledger.set_double_bet true);;
      emit [Lit "Boss Mode: All bets are doubled!"]
    else
      emit [Lit "Unknown Boss rule: "; Str rule]).

Definition get_current_boss_blinds : M t (Z * Z) :=
  self ← get;
  mret (small_blind self, big_blind self).

Definition __repr__ : M t line :=
  self ← get;
  mret [Lit "<BossBlinds: Small Blind = "; Num (PyInt (small_blind self));
        Lit ", Big Blind = "; Num (PyInt (big_blind self));
        Lit ", Rounds Until Next Increment = ";
        Num (PyInt (escalation_rate self - round_counter self));
        Lit ", Difficulty Level = "; Num (PyInt (difficulty_level self));
        Lit ", Max Blind Cap = "; Num (PyInt (max_blind_cap self)); Lit ">"].

End BossBlinds.

(** ** [class GameState] and its subclasses

    A reference to another node is the identity of that object. *)
Abbreviation ref := nat (only parsing).

(** The three capabilities every state class answers to; each class
    below provides its own. *)
Class GameStateMethods (St : Type) : Type := {
  is_terminal : M St bool;
  get_actions : M St (list string);
  simulate : M St num
}.

Module GameState.

Record t : Type := mk {
  state_type : string;
  parent : option ref;
  children : list ref;
  visits : Z;
  value : float
}.

Definition __init__ (state_type : string) (parent : option ref) : t :=
  mk state_type parent [] 0 (Q2Qc 0.0).

Definition is_terminal : M t bool := raise (NotImplementedError "").

Definition get_actions : M t (list string) := raise (NotImplementedError "").

Definition simulate : M t num := raise (NotImplementedError "").

Definition __repr__ : M t line :=
  self ← get;
  mret [Lit "<GameState type="; Str (state_type self); Lit " visits=";
        Num (PyInt (visits self)); Lit " value=";
        Num (PyFloat (value self)); Lit ">"].

End GameState.

(** [PlayState.__init__] and [BuyState.__init__] bind their own
    attributes and do not call [GameState.__init__]: [inherited] is
    [None] on the objects they build. *)
Module PlayState.

Record t : Type := mk {
  inherited : option GameState.t;
  hand : list Card.t;
  chips : num;
  multiplier : num;
  required_score : num;
  current_score : num;
  rounds_remaining : Z;
  jokers : list JokerCard.t;
  active_buffs : list Effect.t;
  is_boss_round : bool;
  played_hands : list string;
  bonus_cards_used : Z;
  score_multiplier_history : list num
}.

Definition __init__ (hand : list Card.t) (chips multiplier : num)
    (required_score current_score : num) (rounds_remaining : Z)
    (jokers : list JokerCard.t) (active_buffs : list Effect.t) : t :=
  mk None hand chips multiplier required_score current_score
     rounds_remaining jokers active_buffs false [] 0 [].

Definition is_terminal : M t bool :=
  self ← get;
  mret (bool_decide (num_ge (current_score self) (required_score self))
        || (rounds_remaining self <=? 0)).

Definition get_actions : M t (list string) :=
  mret ["Pair"; "Flush"; "Full House"; "Straight"].

Definition simulate : M t num :=
  self ← get;
  actions ← get_actions;
  action ← random_choice actions;
  let reward := num_mul (multiplier self) (PyInt 10) in
  mret reward.

(** Attribute reads [node.visits], [node.value], [node.children]. *)
Definition visits : M t Z :=
  self ← get; getattr "visits" (inherited self) GameState.visits.

Definition value : M t float :=
  self ← get; getattr "value" (inherited self) GameState.value.

Definition children : M t (list ref) :=
  self ← get; getattr "children" (inherited self) GameState.children.

(** [__repr__] is inherited from [GameState]: it reads [state_type],
    [visits] and [value] off the object, in that order. *)
Definition __repr__ : M t line :=
  self ← get;
  type ← getattr "state_type" (inherited self) GameState.state_type;
  seen ← getattr "visits" (inherited self) GameState.visits;
  total ← getattr "value" (inherited self) GameState.value;
  mret [Lit "<GameState type="; Str type; Lit " visits=";
        Num (PyInt seen); Lit " value="; Num (PyFloat total); Lit ">"].

End PlayState.

Module BuyState.

(** A shop item is a dict with the keys ["name"] and ["cost"]. *)
Record item : Type := mk_item {
  name : string;
  cost : num
}.

Record t : Type := mk {
  inherited : option GameState.t;
  shop_items : list item;
  money : num;
  jokers_owned : list JokerCard.t;
  rerolls_remaining : Z;
  shop_level : Z;
  bonus_discount : Z;
  items_purchased : list string;
  free_reroll_used : bool
}.

Definition __init__ (shop_items : list item) (money : num)
    (jokers_owned : list JokerCard.t) (rerolls_remaining shop_level : Z) : t :=
  mk None shop_items money jokers_owned rerolls_remaining shop_level
     0 [] false.

Definition is_terminal : M t bool :=
  self ← get;
  mret (bool_decide (num_le (money self) (PyInt 0))
        || bool_decide (shop_items self = [])).

Definition get_actions : M t (list string) :=
  self ← get;
  mret (name <$> filter (λ item, num_le (cost item) (money self))
                        (shop_items self)).

Definition simulate : M t num :=
  self ← get;
  let affordable_items :=
    filter (λ item, num_le (cost item) (money self)) (shop_items self) in
  match affordable_items with
  | [] => mret (PyInt 0)
  | _ :: _ =>
      chosen_item ← random_choice affordable_items;
      lift (num_truediv (cost chosen_item) (PyInt 10))
  end.

Definition visits : M t Z :=
  self ← get; getattr "visits" (inherited self) GameState.visits.

Definition value : M t float :=
  self ← get; getattr "value" (inherited self) GameState.value.

Definition children : M t (list ref) :=
  self ← get; getattr "children" (inherited self) GameState.children.

(** [__repr__] is inherited from [GameState]: it reads [state_type],
    [visits] and [value] off the object, in that order. *)
Definition __repr__ : M t line :=
  self ← get;
  type ← getattr "state_type" (inherited self) GameState.state_type;
  seen ← getattr "visits" (inherited self) GameState.visits;
  total ← getattr "value" (inherited self) GameState.value;
  mret [Lit "<GameState type="; Str type; Lit " visits=";
        Num (PyInt seen); Lit " value="; Num (PyFloat total); Lit ">"].

End BuyState.

#[global] Instance GameState_methods : GameStateMethods GameState.t := {|
  is_terminal := GameState.is_terminal;
  get_actions := GameState.get_actions;
  simulate := GameState.simulate
|}.

#[global] Instance PlayState_methods : GameStateMethods PlayState.t := {|
  is_terminal := PlayState.is_terminal;
  get_actions := PlayState.get_actions;
  simulate := PlayState.simulate
|}.

#[global] Instance BuyState_methods : GameStateMethods BuyState.t := {|
  is_terminal := BuyState.is_terminal;
  get_actions := BuyState.get_actions;
  simulate := BuyState.simulate
|}.

(** ** Driving a [BossBlinds] object

    A caller holds one [BossBlinds] object and the ledger it passes to
    [apply_boss_rules], and invokes the four mutating methods in any
    order. *)
Inductive boss_call : Type :=
  | CallActivate
  | CallDeactivate
  | CallIncrease
  | CallApplyRules.

Definition on_boss {A} (m : M BossBlinds.t A) : M (BossBlinds.t * Ledger.t) A :=
  focus fst (λ b s, (b, s.2)) m.

Definition on_ledger {A} (m : M Ledger.t A) : M (BossBlinds.t * Ledger.t) A :=
  focus snd (λ g s, (s.1, g)) m.

Definition invoke (c : boss_call) : M (BossBlinds.t * Ledger.t) unit :=
  match c with
  | CallActivate => on_boss BossBlinds.activate_boss_mode
  | CallDeactivate => on_boss BossBlinds.deactivate_boss_mode
  | CallIncrease => on_boss BossBlinds.increase_boss_blinds
  | CallApplyRules =>
      s ← get;
      on_ledger (BossBlinds.apply_boss_rules s.1)
  end.

(** Both blinds within the cap. *)
Definition blinds_capped (b : BossBlinds.t) : Prop :=
  BossBlinds.small_blind b ≤ BossBlinds.max_blind_cap b ∧
  BossBlinds.big_blind b ≤ BossBlinds.max_blind_cap b.

(** ** Vocabulary of the statements *)

(** The nine poker categories, in table order. *)
Definition hand_categories : list string :=
  ["High Card"; "Pair"; "Two Pair"; "Three of a Kind"; "Straight"; "Flush";
   "Full House"; "Four of a Kind"; "Straight Flush"].

(** [affordable_names money items names]: walking the shop list front to
    back, [names] lists the name of each item costing at most [money]
    and skips every other item. *)
Inductive affordable_names (money : num) :
    list BuyState.item → list string → Prop :=
  | affordable_nil : affordable_names money [] []
  | affordable_keep item items names :
      num_le (BuyState.cost item) money →
      affordable_names money items names →
      affordable_names money (item :: items) (BuyState.name item :: names)
  | affordable_skip item items names :
      ¬ num_le (BuyState.cost item) money →
      affordable_names money items names →
      affordable_names money (item :: items) names.

(** [escalates_after b n]: [n] calls of [increase_boss_blinds] on [b]
    return and leave each blind at the minimum of its old value plus 5
    and the cap, with the round counter back at 0. *)
Definition escalates_after (b : BossBlinds.t) (n : nat) : Prop :=
  ∀ out r,
    let ticked :=
      repeat_call n BossBlinds.increase_boss_blinds (mkWorld b out r) in
    let b' := target ticked.2 in
    ticked.1 = Ok tt ∧
    BossBlinds.small_blind b' =
      Z.min (BossBlinds.small_blind b + 5) (BossBlinds.max_blind_cap b) ∧
    BossBlinds.big_blind b' =
      Z.min (BossBlinds.big_blind b + 5) (BossBlinds.max_blind_cap b) ∧
    BossBlinds.round_counter b' = 0.

(** [blinds_unchanged_after b n]: [n] such calls return and leave both
    blinds as they were. *)
Definition blinds_unchanged_after (b : BossBlinds.t) (n : nat) : Prop :=
  ∀ out r,
    let ticked :=
      repeat_call n BossBlinds.increase_boss_blinds (mkWorld b out r) in
    let b' := target ticked.2 in
    ticked.1 = Ok tt ∧
    BossBlinds.small_blind b' = BossBlinds.small_blind b ∧
    BossBlinds.big_blind b' = BossBlinds.big_blind b.

(** [only_chips_and_bet_change g g']: from [g] to [g'] no field other
    than [chips] and [double_bet] differs, and [double_bet] is not
    cleared. *)
Definition only_chips_and_bet_change (g g' : Ledger.t) : Prop :=
  Ledger.multiplier g' = Ledger.multiplier g ∧
  Ledger.base_multiplier g' = Ledger.base_multiplier g ∧
  Ledger.hand_size g' = Ledger.hand_size g ∧
  Ledger.rerolls_remaining g' = Ledger.rerolls_remaining g ∧
  Ledger.shop_discount g' = Ledger.shop_discount g ∧
  Ledger.shop_slots g' = Ledger.shop_slots g ∧
  (Ledger.double_bet g = true → Ledger.double_bet g' = true).

(** [deck_rules_frame g g']: the fields no deck rule writes are the same
    in [g] and [g']. *)
Definition deck_rules_frame (g g' : Ledger.t) : Prop :=
  Ledger.multiplier g' = Ledger.multiplier g ∧
  Ledger.hand_size g' = Ledger.hand_size g ∧
  Ledger.double_bet g' = Ledger.double_bet g ∧
  Ledger.shop_discount g' = Ledger.shop_discount g ∧
  Ledger.shop_slots g' = Ledger.shop_slots g.

(** [voucher_frame g g']: the fields no voucher writes are the same in
    [g] and [g']. *)
Definition voucher_frame (g g' : Ledger.t) : Prop :=
  Ledger.multiplier g' = Ledger.multiplier g ∧
  Ledger.base_multiplier g' = Ledger.base_multiplier g ∧
  Ledger.hand_size g' = Ledger.hand_size g ∧
  Ledger.double_bet g' = Ledger.double_bet g.

(** [boss_step b b']: what one method call can do to a [BossBlinds]
    object: set the mode flag, count a round, escalate, or nothing. *)
Definition boss_step (b b' : BossBlinds.t) : Prop :=
  let threshold :=
    BossBlinds.difficulty_level b * BossBlinds.escalation_rate b in
  (∃ flag, b' = BossBlinds.set_boss_mode_active flag b) ∨
  (BossBlinds.boss_mode_active b = true ∧
   BossBlinds.round_counter b + 1 < threshold ∧
   b' = BossBlinds.set_round_counter (BossBlinds.round_counter b + 1) b) ∨
  (BossBlinds.boss_mode_active b = true ∧
   threshold ≤ BossBlinds.round_counter b + 1 ∧
   b' = BossBlinds.mk
          (Z.min (BossBlinds.small_blind b + 5) (BossBlinds.max_blind_cap b))
          (Z.min (BossBlinds.big_blind b + 5) (BossBlinds.max_blind_cap b))
          (BossBlinds.escalation_rate b) (BossBlinds.max_blind_cap b)
          (BossBlinds.difficulty_level b) (BossBlinds.special_rules b)
          0 true) ∨
  b' = b.

(** The effect list of a card that only hands out chips. *)
Definition chip_effects (ms : list Z) : list Effect.t :=
  (λ m, Effect.__init__ "increase_chips" (Some (PyInt m))) <$> ms.

(** ** Sample objects *)

Definition sample_ledger : Ledger.t :=
  Ledger.mk (PyInt 3) (PyFloat (Q2Qc 1.0)) (PyFloat (Q2Qc 1.0)) (PyInt 5)
            false (PyInt 2) (PyInt 0) (PyInt 2).

(** An int beyond the range of a double, a ledger holding that many
    chips, and the float one half. *)
Definition huge : Z := 10 ^ 400.
Arguments huge : simpl never.

Definition rich_ledger : Ledger.t := Ledger.set_chips (PyInt huge) sample_ledger.

Definition half : float := Q2Qc 0.5.

Definition sample_world {St} (s : St) : World St :=
  mkWorld s [] (λ i, i).

Definition sample_boss (escalation_rate : Z) (active : bool) : BossBlinds.t :=
  BossBlinds.set_boss_mode_active active
    (BossBlinds.__init__ 10 20 escalation_rate 100 (Some 2) None).

Definition crown_shop : list BuyState.item :=
  [BuyState.mk_item "crown" (PyInt huge)].

Definition sample_shop : list BuyState.item :=
  [BuyState.mk_item "A" (PyInt 5); BuyState.mk_item "B" (PyInt 50)].

(** * Properties *)

(** ** Running computations *)

Ltac run :=
  unfold mbind, mret, M_bind, M_ret, get, put, modify, emit, raise, lift,
    getattr; cbn.

Lemma bind_ok {St A B} (m : M St A) (k : A → M St B) w a w' :
  m w = (Ok a, w') → (m ≫= k) w = k a w'.
Proof. intros E. unfold mbind, M_bind. by rewrite E. Qed.

Lemma bind_raise {St A B} (m : M St A) (k : A → M St B) w e w' :
  m w = (Raise e, w') → (m ≫= k) w = (Raise e, w').
Proof. intros E. unfold mbind, M_bind. by rewrite E. Qed.

Lemma repeat_call_S {St} n (m : M St unit) w w' :
  m w = (Ok tt, w') → repeat_call (S n) m w = repeat_call n m w'.
Proof. intros E. cbn. by rewrite (bind_ok _ _ _ _ _ E). Qed.

Lemma repeat_call_add {St} n k (m : M St unit) w w' :
  repeat_call n m w = (Ok tt, w') →
  repeat_call (n + k) m w = repeat_call k m w'.
Proof.
  revert w. induction n as [|n IH]; intros w E.
  - cbn in E. unfold mret, M_ret in E. by injection E as <-.
  - cbn in E |- *. unfold mbind, M_bind in E |- *.
    destruct (m w) as [[[]|e] w1]; [by apply IH|done].
Qed.

Lemma repeat_call_one {St} (m : M St unit) w w' :
  m w = (Ok tt, w') → repeat_call 1 m w = (Ok tt, w').
Proof. intros E. by rewrite (repeat_call_S _ _ _ _ E). Qed.

Lemma for_each_cons {St A} (x : A) xs (body : A → M St unit) w w' :
  body x w = (Ok tt, w') →
  for_each (x :: xs) body w = for_each xs body w'.
Proof. intros E. cbn. by rewrite (bind_ok _ _ _ _ _ E). Qed.

Lemma for_each_raise {St A} (x : A) xs (body : A → M St unit) w e w' :
  body x w = (Raise e, w') →
  for_each (x :: xs) body w = (Raise e, w').
Proof. intros E. cbn. by rewrite (bind_raise _ _ _ _ _ E). Qed.

(** A loop whose body either returns, taking the invariant [P] one
    step on, or raises [OverflowError] without touching the world:
    the loop returns after all steps, or stops with that exception
    after fewer. *)
Lemma for_each_outcome {St A} (P : nat → World St → Prop)
    (body : A → M St unit) (xs : list A) :
  (∀ x n w, x ∈ xs → P n w →
     (∃ w', body x w = (Ok tt, w') ∧ P (S n) w') ∨
     body x w = (Raise OverflowError, w)) →
  ∀ n w, P n w →
    (∃ w', for_each xs body w = (Ok tt, w') ∧ P (n + length xs)%nat w') ∨
    (∃ w' k, for_each xs body w = (Raise OverflowError, w') ∧
             (k < length xs)%nat ∧ P (n + k)%nat w').
Proof.
  induction xs as [|x xs IH]; intros Hbody n w HP.
  - left. exists w. split; [done|]. by rewrite Nat.add_0_r.
  - destruct (Hbody x n w) as [(w1 & Hx & HP1)|Hx]; [left|done| |].
    + rewrite (for_each_cons _ _ _ _ _ Hx).
      destruct (IH (λ y k v Hy, Hbody y k v (list_elem_of_further _ _ _ Hy))
                   (S n) w1 HP1) as [(w2 & Hrest & HP2)|(w2 & k & Hrest & Hk & HP2)].
      * left. exists w2. split; [done|].
        cbn [length]. by rewrite Nat.add_succ_r.
      * right. exists w2, (S k). split; [done|]. split; [cbn; lia|].
        by rewrite Nat.add_succ_r.
    + right. exists w, 0%nat. rewrite (for_each_raise _ _ _ _ _ _ Hx).
      split; [done|]. split; [cbn; lia|]. by rewrite Nat.add_0_r.
Qed.

Lemma repeat_call_fixed {St} n (m : M St unit) w :
  m w = (Ok tt, w) → repeat_call n m w = (Ok tt, w).
Proof.
  intros E. induction n as [|n IH]; [done|].
  by rewrite (repeat_call_S _ _ _ _ E).
Qed.

(** ** Numbers *)

Lemma num_le_int (x y : Z) : num_le (PyInt x) (PyInt y) ↔ x ≤ y.
Proof. unfold num_le; cbn. symmetry. apply Z2Qc_inj_le. Qed.

Lemma num_ge_int (x y : Z) : num_ge (PyInt x) (PyInt y) ↔ y ≤ x.
Proof. apply num_le_int. Qed.

Lemma num_add_int (x y : Z) : num_add (PyInt x) (PyInt y) = Ok (PyInt (x + y)).
Proof. reflexivity. Qed.

Lemma int_to_float_cases (z : Z) :
  (Z.abs z < float_range ∧ int_to_float z = Ok (Qc_of_Z z)) ∨
  (float_range ≤ Z.abs z ∧ int_to_float z = Raise OverflowError).
Proof.
  unfold int_to_float. destruct (Z.ltb_spec (Z.abs z) float_range); auto.
Qed.

Lemma num_add_cases (a b : num) :
  (∃ total, num_add a b = Ok total) ∨ num_add a b = Raise OverflowError.
Proof.
  destruct a as [x|p], b as [y|q]; cbn; eauto.
  - destruct (int_to_float_cases x) as [[_ ->]|[_ ->]]; cbn; eauto.
  - destruct (int_to_float_cases y) as [[_ ->]|[_ ->]]; cbn; eauto.
Qed.

Lemma int_to_float_huge : int_to_float huge = Raise OverflowError.
Proof. vm_compute. reflexivity. Qed.

Lemma num_add_huge_half :
  num_add (PyInt huge) (PyFloat half) = Raise OverflowError.
Proof. cbn. by rewrite int_to_float_huge. Qed.

Lemma iadd_ok field set_field value (w : World Ledger.t) total :
  num_add (field (target w)) value = Ok total →
  iadd field set_field value w =
    (Ok tt, mkWorld (set_field total (target w)) (stdout w) (rng w)).
Proof. intros E. unfold iadd; run. by rewrite E. Qed.

Lemma iadd_raise field set_field value (w : World Ledger.t) e :
  num_add (field (target w)) value = Raise e →
  iadd field set_field value w = (Raise e, w).
Proof. intros E. unfold iadd; run. by rewrite E. Qed.

Lemma iadd_emit_cases field set_field value (l : line) (w : World Ledger.t) :
  (∃ total,
     num_add (field (target w)) value = Ok total ∧
     (iadd field set_field value;; emit l) w =
       (Ok tt, mkWorld (set_field total (target w)) (stdout w ++ [l]) (rng w))) ∨
  (num_add (field (target w)) value = Raise OverflowError ∧
   (iadd field set_field value;; emit l) w = (Raise OverflowError, w)).
Proof.
  destruct (num_add_cases (field (target w)) value) as [[total E]|E].
  - left. exists total. split; [done|].
    by rewrite (bind_ok _ _ _ _ _ (iadd_ok _ _ _ _ _ E)).
  - right. split; [done|].
    by rewrite (bind_raise _ _ _ _ _ (iadd_raise _ _ _ _ _ E)).
Qed.

(** [iadd_step w]: split on whether the [+=] that the goal runs from
    [w] forms its sum or raises. *)
Ltac iadd_step w :=
  match goal with
  | |- context [(iadd ?f ?s ?x ≫= λ _, emit ?l) w] =>
      destruct (iadd_emit_cases f s x l w) as [(? & _ & ->)|[_ ->]]
  end.

(** ** Effect engine *)

Lemma Effect_apply_unknown (kind : string) (v : option num) w :
  kind ≠ "increase_chips" → kind ≠ "double_bet" → kind ≠ "swap_cards" →
  Effect.apply (Effect.__init__ kind v) w =
    (Ok tt, mkWorld (target w)
              (stdout w ++ [[Lit "Unknown effect: "; Str kind]]) (rng w)).
Proof.
  intros H1 H2 H3. unfold Effect.apply, Effect.__init__; cbn.
  rewrite !bool_decide_eq_false_2 by done. done.
Qed.

Lemma Effect_apply_increase (m total : num) w :
  num_add (Ledger.chips (target w)) m = Ok total →
  Effect.apply (Effect.__init__ "increase_chips" (Some m)) w =
    (Ok tt, mkWorld (Ledger.set_chips total (target w))
              (stdout w ++ [[Num m; Lit " chips added!"]]) (rng w)).
Proof.
  intros E. unfold Effect.apply, Effect.__init__.
  cbn [Effect.effect_type Effect.value].
  rewrite bool_decide_eq_true_2 by done.
  by rewrite (bind_ok _ _ _ _ _ (iadd_ok _ _ _ _ _ E)).
Qed.

Lemma Effect_apply_overflow (m : num) e w :
  num_add (Ledger.chips (target w)) m = Raise e →
  Effect.apply (Effect.__init__ "increase_chips" (Some m)) w = (Raise e, w).
Proof.
  intros E. unfold Effect.apply, Effect.__init__.
  cbn [Effect.effect_type Effect.value].
  rewrite bool_decide_eq_true_2 by done.
  by rewrite (bind_raise _ _ _ _ _ (iadd_raise _ _ _ _ _ E)).
Qed.

Lemma Effect_apply_no_magnitude w :
  Effect.apply (Effect.__init__ "increase_chips" None) w =
    (Ok tt, mkWorld (target w)
              (stdout w ++ [[Lit "Unknown effect: "; Str "increase_chips"]])
              (rng w)).
Proof. reflexivity. Qed.

(** C9, as the code has it.  Applying an [increase_chips] effect with
    magnitude [m] evaluates [chips + m].  When that sum is formed (it
    always is for two ints, where it is the exact sum) the call returns
    and leaves a ledger whose [chips] is the sum and whose other fields
    are the old ones; when the addition raises (an int beyond the range
    of a double met with a float) the exception leaves [apply] and the
    world is as it was.  With no magnitude, or with a kind that is none
    of the three the dispatcher knows, the call returns and the ledger
    is the one it was given.  On [chips = 3],
    [Effect("increase_chips", 7)] leaves [chips = 10]. *)
Theorem Effect_apply_increase_chips (w : World Ledger.t) :
  let g := target w in
  (∀ m total : num,
     num_add (Ledger.chips g) m = Ok total →
     let out := Effect.apply (Effect.__init__ "increase_chips" (Some m)) w in
     out.1 = Ok tt ∧
     target out.2 =
       Ledger.mk total (Ledger.multiplier g)
         (Ledger.base_multiplier g) (Ledger.hand_size g)
         (Ledger.double_bet g) (Ledger.rerolls_remaining g)
         (Ledger.shop_discount g) (Ledger.shop_slots g)) ∧
  (∀ c m : Z,
     Ledger.chips g = PyInt c →
     num_add (Ledger.chips g) (PyInt m) = Ok (PyInt (c + m))) ∧
  (∀ (m : num) e,
     num_add (Ledger.chips g) m = Raise e →
     e = OverflowError ∧
     Effect.apply (Effect.__init__ "increase_chips" (Some m)) w = (Raise e, w)) ∧
  (let out := Effect.apply (Effect.__init__ "increase_chips" None) w in
   out.1 = Ok tt ∧ target out.2 = g) ∧
  (∀ (kind : string) (v : option num),
     kind ≠ "increase_chips" → kind ≠ "double_bet" → kind ≠ "swap_cards" →
     let out := Effect.apply (Effect.__init__ kind v) w in
     out.1 = Ok tt ∧ target out.2 = g) ∧
  (Ledger.chips g = PyInt 3 →
   Ledger.chips
     (target (Effect.apply (Effect.__init__ "increase_chips" (Some (PyInt 7))) w).2)
   = PyInt 10).
Proof.
  intros g. split; [|split; [|split; [|split; [|split]]]].
  - intros m total E. by rewrite (Effect_apply_increase _ _ _ E).
  - intros c m ->. apply num_add_int.
  - intros m e E. split; [|by apply Effect_apply_overflow].
    destruct (num_add_cases (Ledger.chips g) m) as [[total E']|E'];
      congruence.
  - by rewrite Effect_apply_no_magnitude.
  - intros kind v H1 H2 H3. by rewrite Effect_apply_unknown.
  - subst g. intros Hc.
    rewrite (Effect_apply_increase (PyInt 7) (PyInt 10)); [done|].
    by rewrite Hc.
Qed.

Lemma Effect_apply_increase_chips_witness :
  let w := sample_world sample_ledger in
  (Effect.apply (Effect.__init__ "explode" None) w).1 = Ok tt ∧
  target (Effect.apply (Effect.__init__ "explode" None) w).2 = sample_ledger ∧
  Ledger.chips
    (target (Effect.apply (Effect.__init__ "increase_chips" (Some (PyInt 7))) w).2)
  = PyInt 10 ∧
  Effect.apply (Effect.__init__ "increase_chips" (Some (PyFloat half)))
    (sample_world rich_ledger)
  = (Raise OverflowError, sample_world rich_ledger).
Proof.
  intros w.
  destruct (Effect_apply_increase_chips w) as (_ & _ & _ & _ & Hunknown & Hten).
  destruct (Hunknown "explode" None) as [Hok Hsame]; [done..|].
  split; [exact Hok|]. split; [exact Hsame|]. split; [apply Hten; reflexivity|].
  destruct (Effect_apply_increase_chips (sample_world rich_ledger))
    as (_ & _ & Hraise & _).
  apply (Hraise (PyFloat half) OverflowError).
  cbn. by rewrite int_to_float_huge.
Defined.

(** C9 as first stated fails on a ledger holding the int [10^400] as
    chips: [Effect("increase_chips", 0.5)] raises [OverflowError] and
    the chips are not changed. *)
Lemma Effect_apply_overflow_counterexample :
  let w := sample_world rich_ledger in
  let out := Effect.apply (Effect.__init__ "increase_chips" (Some (PyFloat half))) w in
  out.1 = Raise OverflowError ∧
  Ledger.chips (target out.2) = Ledger.chips (target w).
Proof.
  intros w out. subst out.
  rewrite (Effect_apply_overflow (PyFloat half) OverflowError); [done|].
  cbn. by rewrite int_to_float_huge.
Qed.

(** ** Abstract bases *)

(** C10.  On an instance of the base class [GameState] each of
    [is_terminal], [get_actions] and [simulate] raises
    [NotImplementedError], and so does [apply_effect] on a plain
    [Consumable]; in every case the world after the call is the world
    before it. *)
Theorem abstract_methods_raise :
  (∀ w : World GameState.t,
     (∃ msg, is_terminal w = (Raise (NotImplementedError msg), w)) ∧
     (∃ msg, get_actions w = (Raise (NotImplementedError msg), w)) ∧
     (∃ msg, simulate w = (Raise (NotImplementedError msg), w))) ∧
  (∀ (c : Consumable.t) (w : World Ledger.t),
     ∃ msg, Consumable.apply_effect c w = (Raise (NotImplementedError msg), w)).
Proof.
  split.
  - intros w. repeat split; by eexists.
  - intros c w. by eexists.
Qed.

(** ** PlayState *)

Lemma PlayState_is_terminal_run (w : World PlayState.t) :
  PlayState.is_terminal w =
    (Ok (bool_decide (num_ge (PlayState.current_score (target w))
                             (PlayState.required_score (target w)))
         || (PlayState.rounds_remaining (target w) <=? 0)), w).
Proof. reflexivity. Qed.

(** C6.  [PlayState.is_terminal] returns a boolean and leaves the world
    as it was; the boolean is true exactly when
    [current_score >= required_score] or [rounds_remaining <= 0].  It is
    true at scores (100, 100) with 3 rounds left, true at (0, 100) with
    0 rounds left, false at (0, 100) with 3 rounds left. *)
Theorem PlayState_is_terminal_spec :
  (∀ w : World PlayState.t,
     ∃ b : bool,
       PlayState.is_terminal w = (Ok b, w) ∧
       (b = true ↔
          num_ge (PlayState.current_score (target w))
                 (PlayState.required_score (target w))
          ∨ PlayState.rounds_remaining (target w) ≤ 0)) ∧
  (∀ hand chips multiplier jokers active_buffs out r,
     let state required current rounds :=
       mkWorld (PlayState.__init__ hand chips multiplier (PyInt required)
                  (PyInt current) rounds jokers active_buffs) out r in
     (PlayState.is_terminal (state 100 100 3)).1 = Ok true ∧
     (PlayState.is_terminal (state 100 0 0)).1 = Ok true ∧
     (PlayState.is_terminal (state 100 0 3)).1 = Ok false).
Proof.
  split.
  - intros w. eexists. split; [apply PlayState_is_terminal_run|].
    rewrite orb_true_iff, bool_decide_eq_true, Z.leb_le. done.
  - intros. repeat split.
Qed.

(** ** Search-tree nodes *)

Lemma GameState_init_fresh (state_type : string) (parent : option ref) :
  let node := GameState.__init__ state_type parent in
  GameState.visits node = 0 ∧
  GameState.value node = Q2Qc 0.0 ∧
  GameState.children node = [] ∧
  GameState.parent node = parent.
Proof. by repeat split. Qed.

(** C1.  What the code does on a freshly constructed phase state: reading
    [visits], [value] or [children] of a new [PlayState] or [BuyState]
    raises [AttributeError], because neither constructor runs
    [GameState.__init__]. *)
Theorem phase_state_init_binds_no_statistics :
  (∀ hand chips multiplier required_score current_score rounds_remaining
     jokers active_buffs out r,
     let w := mkWorld (PlayState.__init__ hand chips multiplier required_score
                         current_score rounds_remaining jokers active_buffs)
                out r in
     PlayState.visits w = (Raise (AttributeError "visits"), w) ∧
     PlayState.value w = (Raise (AttributeError "value"), w) ∧
     PlayState.children w = (Raise (AttributeError "children"), w)) ∧
  (∀ shop_items money jokers_owned rerolls_remaining shop_level out r,
     let w := mkWorld (BuyState.__init__ shop_items money jokers_owned
                         rerolls_remaining shop_level) out r in
     BuyState.visits w = (Raise (AttributeError "visits"), w) ∧
     BuyState.value w = (Raise (AttributeError "value"), w) ∧
     BuyState.children w = (Raise (AttributeError "children"), w)).
Proof. split; intros; by repeat split. Qed.

(** The consumable subclasses, by contrast, run the base initialiser. *)
Lemma Consumable_subclasses_bind_base name cost description rarity :
  (∀ buff_type buff_value,
     TarotCard.inherited
       (TarotCard.__init__ name cost description rarity buff_type buff_value)
     = Some (Consumable.__init__ name cost description rarity)) ∧
  (∀ special_effect,
     PlanetCard.inherited
       (PlanetCard.__init__ name cost description rarity special_effect)
     = Some (Consumable.__init__ name cost description rarity)) ∧
  (∀ duration effect_function,
     SpectralCard.inherited
       (SpectralCard.__init__ name cost description rarity duration
          effect_function)
     = Some (Consumable.__init__ name cost description rarity)).
Proof. done. Qed.

(** ** BuyState *)

Lemma BuyState_get_actions_run (w : World BuyState.t) :
  let self := target w in
  BuyState.get_actions w =
    (Ok (BuyState.name <$>
           filter (λ item, num_le (BuyState.cost item) (BuyState.money self))
                  (BuyState.shop_items self)), w).
Proof. reflexivity. Qed.

Lemma BuyState_simulate_none (w : World BuyState.t) :
  let self := target w in
  filter (λ item, num_le (BuyState.cost item) (BuyState.money self))
         (BuyState.shop_items self) = [] →
  BuyState.simulate w = (Ok (PyInt 0), w).
Proof. intros self E. unfold BuyState.simulate; run. fold self. by rewrite E. Qed.

Lemma random_choice_run {St A} (x : A) (xs : list A) (w : World St) :
  ∃ y,
    y ∈ x :: xs ∧
    random_choice (x :: xs) w =
      (Ok y, mkWorld (target w) (stdout w) (λ i, rng w (S i))).
Proof.
  destruct (lookup_lt_is_Some_2 (x :: xs)
              (rng w 0%nat `mod` length (x :: xs))%nat) as [y Hy].
  { by apply Nat.mod_upper_bound. }
  exists y. split; [by eapply list_elem_of_lookup_2|].
  unfold random_choice; run. cbn in Hy. by rewrite Hy.
Qed.

Lemma BuyState_simulate_some (w : World BuyState.t) :
  let self := target w in
  let affordable :=
    filter (λ item, num_le (BuyState.cost item) (BuyState.money self))
           (BuyState.shop_items self) in
  affordable ≠ [] →
  ∃ item,
    item ∈ affordable ∧
    BuyState.simulate w =
      (num_truediv (BuyState.cost item) (PyInt 10),
       mkWorld self (stdout w) (λ i, rng w (S i))).
Proof.
  intros self affordable Hne. unfold BuyState.simulate.
  unfold mbind at 1. unfold M_bind, get. cbn [fst snd]. fold self affordable.
  destruct affordable as [|item rest]; [done|].
  destruct (random_choice_run item rest w) as (y & Hin & Hrun).
  exists y. split; [done|].
  by rewrite (bind_ok _ _ _ _ _ Hrun).
Qed.

Lemma int_to_float_ten : int_to_float 10 = Ok (Qc_of_Z 10).
Proof. reflexivity. Qed.

Lemma num_truediv_ten_float (q : float) :
  num_truediv (PyFloat q) (PyInt 10) = Ok (PyFloat (q / Qc_of_Z 10)).
Proof.
  unfold num_truediv. rewrite int_to_float_ten. cbn. unfold float_truediv.
  by rewrite bool_decide_eq_false_2.
Qed.

Lemma num_truediv_ten_int (c : Z) :
  (Z.abs c < float_range * 10 ∧
   num_truediv (PyInt c) (PyInt 10) = Ok (PyFloat (Qc_of_Z c / Qc_of_Z 10))) ∨
  (float_range * 10 ≤ Z.abs c ∧
   num_truediv (PyInt c) (PyInt 10) = Raise OverflowError).
Proof.
  unfold num_truediv. change (10 =? 0) with false.
  change (Z.abs 10) with 10. cbv iota.
  destruct (Z.ltb_spec (Z.abs c) (float_range * 10)); [left|right]; by split.
Qed.

Lemma num_truediv_ten (a : num) :
  let outcome := num_truediv a (PyInt 10) in
  (outcome = Raise OverflowError ↔
     ∃ c, a = PyInt c ∧ float_range * 10 ≤ Z.abs c) ∧
  (outcome ≠ Raise OverflowError → ∃ q, outcome = Ok (PyFloat q)).
Proof.
  destruct a as [c|q]; cbv zeta.
  - destruct (num_truediv_ten_int c) as [[Hlt ->]|[Hge ->]].
    + split; [|by eauto]. split; [done|]. intros (c' & [= <-] & Hge). lia.
    + split; [|done]. split; [|done]. intros _. by exists c.
  - rewrite num_truediv_ten_float. split; [|by eauto].
    split; [done|]. by intros (c & ? & _).
Qed.

Lemma affordable_names_filter money items :
  affordable_names money items
    (BuyState.name <$> filter (λ item, num_le (BuyState.cost item) money) items).
Proof.
  induction items as [|item items IH]; [constructor|].
  destruct (decide (num_le (BuyState.cost item) money)) as [Hle|Hgt].
  - rewrite filter_cons_True by done. by constructor.
  - rewrite filter_cons_False by done. by constructor.
Qed.

Lemma affordable_names_unique money items names1 names2 :
  affordable_names money items names1 →
  affordable_names money items names2 →
  names1 = names2.
Proof.
  intros H1. revert names2.
  induction H1 as [|item items names Hle _ IH|item items names Hgt _ IH];
    intros names2 H2; inversion H2; subst; try done.
  - f_equal. by apply IH.
  - by apply IH.
Qed.

(** C7.  [BuyState.get_actions] returns, without changing the world, the
    one list [names] that [affordable_names] relates to the shop list
    and the money: the names of the items with [cost <= money], in shop
    order.  For the shop [A:5, B:50] and money 10 it returns [["A"]]. *)
Theorem BuyState_get_actions_spec :
  (∀ w : World BuyState.t,
     let self := target w in
     ∃ names,
       BuyState.get_actions w = (Ok names, w) ∧
       affordable_names (BuyState.money self) (BuyState.shop_items self) names ∧
       ∀ names',
         affordable_names (BuyState.money self) (BuyState.shop_items self) names' ↔
         names' = names) ∧
  (∀ jokers_owned rerolls_remaining shop_level out r,
     (BuyState.get_actions
        (mkWorld (BuyState.__init__ sample_shop (PyInt 10) jokers_owned
                    rerolls_remaining shop_level) out r)).1
     = Ok ["A"]).
Proof.
  split.
  - intros w self. eexists. split; [apply BuyState_get_actions_run|].
    pose proof (affordable_names_filter (BuyState.money self)
                  (BuyState.shop_items self)) as Hf.
    split; [exact Hf|]. intros names'. split.
    + intros H'. by eapply affordable_names_unique.
    + by intros ->.
  - reflexivity.
Qed.

(** C8, as the code has it.  [BuyState.simulate] returns the int 0 when
    no shop item has [cost <= money].  When some item has, it evaluates
    [cost / 10] for one such item: it returns that float, unless the
    cost is an int of magnitude [10 * float_range] or more, for which
    the division raises [OverflowError].  In every case the [BuyState]
    object after the call is the object before it. *)
Theorem BuyState_simulate_spec (w : World BuyState.t) :
  let self := target w in
  let can_buy item :=
    item ∈ BuyState.shop_items self ∧
    num_le (BuyState.cost item) (BuyState.money self) in
  let outcome := (BuyState.simulate w).1 in
  ((∀ item, ¬ can_buy item) → outcome = Ok (PyInt 0)) ∧
  ((∃ item, can_buy item) →
   ∃ item,
     can_buy item ∧
     outcome = num_truediv (BuyState.cost item) (PyInt 10) ∧
     (outcome = Raise OverflowError ↔
        ∃ c, BuyState.cost item = PyInt c ∧ float_range * 10 ≤ Z.abs c) ∧
     (outcome ≠ Raise OverflowError → ∃ q, outcome = Ok (PyFloat q))) ∧
  target (BuyState.simulate w).2 = self.
Proof.
  intros self can_buy outcome. subst outcome.
  set (affordable :=
         filter (λ item, num_le (BuyState.cost item) (BuyState.money self))
                (BuyState.shop_items self)).
  assert (Hmem : ∀ item, item ∈ affordable ↔ can_buy item).
  { intros item. unfold affordable, can_buy.
    rewrite list_elem_of_filter. tauto. }
  destruct (decide (affordable = [])) as [Hnil|Hcons].
  - rewrite (BuyState_simulate_none w Hnil). split; [done|]. split; [|done].
    intros [item Hitem]. apply Hmem in Hitem. rewrite Hnil in Hitem.
    by apply not_elem_of_nil in Hitem.
  - destruct (BuyState_simulate_some w Hcons) as (item & Hin & ->).
    split; [|split; [|done]].
    + intros Hnone. destruct (Hnone item). by apply Hmem.
    + intros _. exists item. split; [by apply Hmem|]. split; [done|].
      apply num_truediv_ten.
Qed.

Lemma BuyState_simulate_spec_witness :
  (BuyState.simulate
     (sample_world (BuyState.__init__ sample_shop (PyInt 1) [] 0 1))).1
  = Ok (PyInt 0) ∧
  ∃ item,
    (item ∈ sample_shop ∧ num_le (BuyState.cost item) (PyInt 10)) ∧
    (BuyState.simulate
       (sample_world (BuyState.__init__ sample_shop (PyInt 10) [] 0 1))).1
    = num_truediv (BuyState.cost item) (PyInt 10).
Proof.
  split.
  - apply (BuyState_simulate_spec
             (sample_world (BuyState.__init__ sample_shop (PyInt 1) [] 0 1))).
    intros item [Hin Hle]. apply list_elem_of_In in Hin. cbn in Hin.
    destruct Hin as [<-|[<-|[]]]; revert Hle;
      apply (bool_decide_eq_false_1 _); reflexivity.
  - destruct (BuyState_simulate_spec
                (sample_world (BuyState.__init__ sample_shop (PyInt 10) [] 0 1)))
      as (_ & Hsome & _).
    destruct Hsome as (item & Hbuy & Hout & _).
    + exists (BuyState.mk_item "A" (PyInt 5)). split.
      * cbn. apply list_elem_of_In. left. reflexivity.
      * apply (bool_decide_eq_true_1 _). reflexivity.
    + exists item. split; [exact Hbuy|exact Hout].
Defined.

(** C8 as first stated fails when the one affordable item costs the
    int [10^400]: [cost / 10] raises [OverflowError] and no reward is
    returned. *)
Lemma BuyState_simulate_overflow_counterexample :
  let w := sample_world (BuyState.__init__ crown_shop (PyInt huge) [] 0 1) in
  (∃ item, item ∈ BuyState.shop_items (target w) ∧
           num_le (BuyState.cost item) (BuyState.money (target w))) ∧
  (BuyState.simulate w).1 = Raise OverflowError.
Proof.
  split.
  - exists (BuyState.mk_item "crown" (PyInt huge)). split.
    + apply list_elem_of_In. left. reflexivity.
    + apply (bool_decide_eq_true_1 _). vm_compute. reflexivity.
  - vm_compute. reflexivity.
Qed.

(** ** Hand *)

Lemma HAND_BASE_MULTIPLIERS_None (name : string) :
  Hand.HAND_BASE_MULTIPLIERS !! name = None ↔ name ∉ hand_categories.
Proof. unfold Hand.HAND_BASE_MULTIPLIERS. by rewrite <- not_elem_of_list_to_map. Qed.

Lemma Hand_init_category (name : string) (cards : list Card.t) :
  name ∈ hand_categories →
  ∃ c m,
    Hand.HAND_BASE_CHIPS !! name = Some c ∧
    Hand.HAND_BASE_MULTIPLIERS !! name = Some m ∧
    Hand.__init__ name cards = Ok (Hand.mk name cards 1 c m).
Proof.
  intros Hin. apply list_elem_of_In in Hin. cbn in Hin.
  repeat (destruct Hin as [<-|Hin]; [by do 2 eexists|]).
  destruct Hin.
Qed.

Lemma Hand_level_up_run (w : World Hand.t) :
  let self := Hand.set_level (Hand.level (target w) + 1) (target w) in
  Hand.level_up w =
    (Ok tt, mkWorld self
              (stdout w ++ [[Str (Hand.name self); Lit " leveled up to Level ";
                             Num (PyInt (Hand.level self)); Lit "!"]])
              (rng w)).
Proof. reflexivity. Qed.

Lemma Hand_level_up_repeat (N : nat) (w : World Hand.t) :
  ∃ out,
    repeat_call N Hand.level_up w =
      (Ok tt, mkWorld (Hand.set_level (Hand.level (target w) + Z.of_nat N)
                         (target w)) out (rng w)).
Proof.
  revert w. induction N as [|N IH]; intros w.
  - exists (stdout w). cbn. rewrite Z.add_0_r. by destruct w as [[] ? ?].
  - rewrite (repeat_call_S _ _ _ _ (Hand_level_up_run w)).
    edestruct IH as [out ->]. exists out. cbn.
    unfold Hand.set_level; cbn. do 3 f_equal. lia.
Qed.

(** Every multiplier of the table is a number of halves between 1 and 7,
    so at any level below [2^49] the product computed by
    [calculate_multiplier] is an integer below [2^53] over 2: a value
    that binary64 holds exactly. *)
Ltac halves k :=
  exists k; split; [lia | apply Qc_is_canon; reflexivity].

Lemma HAND_BASE_MULTIPLIERS_halves (name : string) (m : float) :
  Hand.HAND_BASE_MULTIPLIERS !! name = Some m →
  ∃ k : Z, 2 ≤ k ≤ 14 ∧ m = (Qc_of_Z k / Qc_of_Z 2)%Qc.
Proof.
  intros Hm. apply elem_of_list_to_map_2 in Hm.
  apply list_elem_of_In in Hm. cbn in Hm.
  repeat (destruct Hm as [[= <- <-]|Hm];
          [first [halves 2|halves 3|halves 4|halves 5|halves 6|halves 7
                 |halves 8|halves 10|halves 14]|]).
  destruct Hm.
Qed.

Lemma Hand_multiplier_dyadic (name : string) (m : float) (level : Z) :
  Hand.HAND_BASE_MULTIPLIERS !! name = Some m →
  0 < level < 2 ^ 49 →
  ∃ k : Z, 0 < k < 2 ^ 53 ∧
           (m * Qc_of_Z level)%Qc = (Qc_of_Z k / Qc_of_Z 2)%Qc.
Proof.
  intros Hm Hlevel.
  destruct (HAND_BASE_MULTIPLIERS_halves name m Hm) as (k & Hk & ->).
  exists (k * level). split; [nia|].
  rewrite Z2Qc_inj_mul. field. done.
Qed.

(** C3.  A name that is none of the nine categories makes the [Hand]
    constructor raise [ValueError] instead of returning an object.
    ["Royal Flush"], which has an entry in the chip table and none in
    the multiplier table, is rejected this way. *)
Theorem Hand_init_rejects (name : string) (cards : list Card.t) :
  (name ∉ hand_categories →
   Hand.__init__ name cards =
     Raise (ValueError ("Invalid hand name: " +:+ name))) ∧
  Hand.__init__ "Royal Flush" cards =
    Raise (ValueError "Invalid hand name: Royal Flush") ∧
  Hand.HAND_BASE_CHIPS !! "Royal Flush" = Some 150 ∧
  Hand.HAND_BASE_MULTIPLIERS !! "Royal Flush" = None.
Proof.
  split; [|done].
  intros Hout. apply HAND_BASE_MULTIPLIERS_None in Hout.
  unfold Hand.__init__. by rewrite Hout.
Qed.

Lemma Hand_init_rejects_witness :
  Hand.__init__ "Five of a Kind" [] =
    Raise (ValueError "Invalid hand name: Five of a Kind").
Proof.
  apply (Hand_init_rejects "Five of a Kind" []).
  apply HAND_BASE_MULTIPLIERS_None. reflexivity.
Defined.

(** C2.  For each of the nine categories the constructor returns a hand
    at level 1.  After [N] calls of [level_up] the level is [N + 1],
    [calculate_chips] returns the table's chips times the level,
    [calculate_multiplier] returns the table's multiplier times the
    level, and both are [N + 1] times what the fresh hand returns. *)
Theorem Hand_scoring_linear (name : string) (cards : list Card.t) :
  name ∈ hand_categories →
  ∃ (h : Hand.t) (c : Z) (m : float),
    Hand.__init__ name cards = Ok h ∧
    Hand.HAND_BASE_CHIPS !! name = Some c ∧
    Hand.HAND_BASE_MULTIPLIERS !! name = Some m ∧
    ∀ (N : nat) out r,
      let fresh := mkWorld h out r in
      let leveled := repeat_call N Hand.level_up fresh in
      let w := leveled.2 in
      let level := Hand.level (target w) in
      leveled.1 = Ok tt ∧
      level = Z.of_nat N + 1 ∧
      Hand.calculate_chips w = (Ok (c * level), w) ∧
      Hand.calculate_multiplier w = (Ok (m * Qc_of_Z level)%Qc, w) ∧
      ∃ (c1 : Z) (m1 : float),
        (Hand.calculate_chips fresh).1 = Ok c1 ∧
        (Hand.calculate_multiplier fresh).1 = Ok m1 ∧
        (Hand.calculate_chips w).1 = Ok ((Z.of_nat N + 1) * c1) ∧
        (Hand.calculate_multiplier w).1 = Ok (Qc_of_Z (Z.of_nat N + 1) * m1)%Qc.
Proof.
  intros Hin.
  destruct (Hand_init_category name cards Hin) as (c & m & Hc & Hm & Hinit).
  exists (Hand.mk name cards 1 c m), c, m.
  split; [done|]. split; [done|]. split; [done|].
  intros N out r fresh leveled w level.
  destruct (Hand_level_up_repeat N fresh) as [out' Hrun].
  subst level w leveled. rewrite Hrun. cbn.
  split; [done|]. split; [lia|].
  unfold Hand.calculate_chips, Hand.calculate_multiplier; run.
  split; [done|]. split; [done|].
  exists c, m.
  replace (Qc_of_Z 1) with 1%Qc by (apply Qc_is_canon; reflexivity).
  replace (1 + Z.of_nat N) with (Z.of_nat N + 1) by lia.
  split; [f_equal; lia|]. split; [f_equal; ring|].
  split; f_equal; [lia|ring].
Qed.

Lemma Hand_scoring_linear_witness :
  ∃ h, Hand.__init__ "Full House" [] = Ok h ∧
       Hand.calculate_chips
         (repeat_call 2 Hand.level_up (sample_world h)).2
       = (Ok (50 * 3), (repeat_call 2 Hand.level_up (sample_world h)).2).
Proof.
  destruct (Hand_scoring_linear "Full House" []) as (h & c & m & Hh & Hc & _ & HN).
  { apply list_elem_of_In. vm_compute. tauto. }
  exists h. split; [exact Hh|].
  destruct (HN 2%nat [] (λ i, i)) as (_ & Hlevel & Hchips & _).
  injection Hc as <-. unfold sample_world.
  rewrite Hchips, Hlevel. reflexivity.
Defined.

(** ** Boss escalation *)

Lemma increase_inactive (w : World BossBlinds.t) :
  BossBlinds.boss_mode_active (target w) = false →
  BossBlinds.increase_boss_blinds w = (Ok tt, w).
Proof.
  intros Hoff. unfold BossBlinds.increase_boss_blinds; run. by rewrite Hoff.
Qed.

Lemma increase_below (w : World BossBlinds.t) :
  let b := target w in
  BossBlinds.boss_mode_active b = true →
  BossBlinds.round_counter b + 1 <
    BossBlinds.difficulty_level b * BossBlinds.escalation_rate b →
  BossBlinds.increase_boss_blinds w =
    (Ok tt, mkWorld (BossBlinds.set_round_counter
                       (BossBlinds.round_counter b + 1) b)
              (stdout w) (rng w)).
Proof.
  intros b. unfold b. intros Hon Hlt.
  unfold BossBlinds.increase_boss_blinds; run. rewrite Hon. cbn.
  case_match eqn:E; [apply Z.geb_le in E; lia|done].
Qed.

Lemma increase_fires (w : World BossBlinds.t) :
  let b := target w in
  BossBlinds.boss_mode_active b = true →
  BossBlinds.difficulty_level b * BossBlinds.escalation_rate b ≤
    BossBlinds.round_counter b + 1 →
  ∃ out,
    BossBlinds.increase_boss_blinds w =
      (Ok tt, mkWorld
                (BossBlinds.mk
                   (Z.min (BossBlinds.small_blind b + 5) (BossBlinds.max_blind_cap b))
                   (Z.min (BossBlinds.big_blind b + 5) (BossBlinds.max_blind_cap b))
                   (BossBlinds.escalation_rate b) (BossBlinds.max_blind_cap b)
                   (BossBlinds.difficulty_level b) (BossBlinds.special_rules b)
                   0 true)
                out (rng w)).
Proof.
  intros b. unfold b. intros Hon Hge.
  unfold BossBlinds.increase_boss_blinds; run. rewrite Hon. cbn.
  case_match eqn:E; [|rewrite Z.geb_leb in E; apply Z.leb_gt in E; lia].
  eexists.
  unfold BossBlinds.set_round_counter, BossBlinds.set_big_blind,
    BossBlinds.set_small_blind; cbn.
  rewrite Hon. reflexivity.
Qed.

Lemma ticks_inactive (n : nat) (w : World BossBlinds.t) :
  BossBlinds.boss_mode_active (target w) = false →
  repeat_call n BossBlinds.increase_boss_blinds w = (Ok tt, w).
Proof. intros Hoff. apply repeat_call_fixed. by apply increase_inactive. Qed.

Lemma ticks_below (k : nat) (w : World BossBlinds.t) :
  let b := target w in
  BossBlinds.boss_mode_active b = true →
  BossBlinds.round_counter b + Z.of_nat k <
    BossBlinds.difficulty_level b * BossBlinds.escalation_rate b →
  repeat_call k BossBlinds.increase_boss_blinds w =
    (Ok tt, mkWorld (BossBlinds.set_round_counter
                       (BossBlinds.round_counter b + Z.of_nat k) b)
              (stdout w) (rng w)).
Proof.
  revert w. induction k as [|k IH]; intros w b Hon Hlt.
  - cbn. rewrite Z.add_0_r. subst b. by destruct w as [[] ? ?].
  - rewrite (repeat_call_S _ _ _ _ (increase_below w Hon ltac:(fold b; lia))).
    rewrite IH; cbn; [|done|fold b; lia].
    unfold BossBlinds.set_round_counter; cbn. fold b. do 3 f_equal. lia.
Qed.

Lemma ticks_to_threshold (b : BossBlinds.t) out r :
  let threshold := BossBlinds.difficulty_level b * BossBlinds.escalation_rate b in
  BossBlinds.boss_mode_active b = true →
  BossBlinds.round_counter b = 0 →
  1 ≤ threshold →
  ∃ out',
    repeat_call (Z.to_nat threshold) BossBlinds.increase_boss_blinds
      (mkWorld b out r) =
    (Ok tt, mkWorld
              (BossBlinds.mk
                 (Z.min (BossBlinds.small_blind b + 5) (BossBlinds.max_blind_cap b))
                 (Z.min (BossBlinds.big_blind b + 5) (BossBlinds.max_blind_cap b))
                 (BossBlinds.escalation_rate b) (BossBlinds.max_blind_cap b)
                 (BossBlinds.difficulty_level b) (BossBlinds.special_rules b)
                 0 true)
              out' r).
Proof.
  intros threshold Hon Hzero Hpos.
  replace (Z.to_nat threshold) with (Z.to_nat (threshold - 1) + 1)%nat by lia.
  pose proof (ticks_below (Z.to_nat (threshold - 1)) (mkWorld b out r)) as Hk.
  cbn in Hk. fold threshold in Hk.
  rewrite (repeat_call_add _ _ _ _ _ (Hk Hon ltac:(lia))).
  set (w' := mkWorld _ _ _).
  destruct (increase_fires w') as [out' Hfire]; [done|cbn; fold threshold; lia|].
  exists out'. by rewrite (repeat_call_one _ _ _ Hfire).
Qed.

(** C4, with the threshold [difficulty_level * escalation_rate] at
    least 1.  On an active [BossBlinds] whose [round_counter] is 0,
    exactly that many calls of [increase_boss_blinds] put each blind at
    the minimum of its old value plus 5 and [max_blind_cap] and put
    [round_counter] back to 0, and any smaller number of calls leaves
    both blinds as they were.  On an inactive [BossBlinds] any number
    of calls leaves the whole object as it was. *)
Theorem BossBlinds_tick_schedule :
  (∀ b : BossBlinds.t,
     let threshold :=
       BossBlinds.difficulty_level b * BossBlinds.escalation_rate b in
     BossBlinds.boss_mode_active b = true →
     BossBlinds.round_counter b = 0 →
     1 ≤ threshold →
     escalates_after b (Z.to_nat threshold) ∧
     ∀ k : nat, Z.of_nat k < threshold → blinds_unchanged_after b k) ∧
  (∀ (b : BossBlinds.t) (k : nat) out r,
     BossBlinds.boss_mode_active b = false →
     repeat_call k BossBlinds.increase_boss_blinds (mkWorld b out r) =
       (Ok tt, mkWorld b out r)).
Proof.
  split.
  - intros b threshold Hon Hzero Hpos. split.
    + intros out r.
      destruct (ticks_to_threshold b out r Hon Hzero Hpos) as [out' E].
      unfold threshold. cbv zeta. rewrite E. by repeat split.
    + intros k Hk out r.
      rewrite (ticks_below k (mkWorld b out r)); cbn; [done|done|].
      fold threshold. lia.
  - intros b k out r Hoff. by apply ticks_inactive.
Qed.

Lemma BossBlinds_tick_schedule_witness :
  escalates_after (sample_boss 3 true) 6 ∧
  blinds_unchanged_after (sample_boss 3 true) 5 ∧
  repeat_call 7 BossBlinds.increase_boss_blinds
    (sample_world (sample_boss 3 false)) =
  (Ok tt, sample_world (sample_boss 3 false)).
Proof.
  destruct BossBlinds_tick_schedule as [Hactive Hinactive].
  destruct (Hactive (sample_boss 3 true)) as [Hfull Hless];
    [reflexivity|reflexivity|vm_compute; discriminate|].
  split; [exact Hfull|]. split.
  - apply (Hless 5%nat). reflexivity.
  - apply (Hinactive (sample_boss 3 false) 7%nat). reflexivity.
Defined.

(** C4 as first stated fails when the threshold is 0: with
    [escalation_rate = 0] the stated number of calls is none, and no
    call leaves the small blind at 10, not at 15. *)
Lemma BossBlinds_zero_threshold_counterexample :
  let b := sample_boss 0 true in
  BossBlinds.boss_mode_active b = true ∧
  BossBlinds.round_counter b = 0 ∧
  ¬ escalates_after b
      (Z.to_nat (BossBlinds.difficulty_level b * BossBlinds.escalation_rate b)).
Proof.
  intros b. split; [done|]. split; [done|].
  intros Hesc. destruct (Hesc [] (λ i, i)) as (_ & Hsmall & _).
  vm_compute in Hsmall. discriminate.
Qed.

Lemma only_chips_and_bet_change_refl g : only_chips_and_bet_change g g.
Proof. by repeat split. Qed.

Lemma only_chips_and_bet_change_trans g1 g2 g3 :
  only_chips_and_bet_change g1 g2 →
  only_chips_and_bet_change g2 g3 →
  only_chips_and_bet_change g1 g3.
Proof.
  intros (?&?&?&?&?&?&?) (?&?&?&?&?&?&?).
  repeat split; try congruence. auto.
Qed.

Lemma apply_boss_rules_outcome (self : BossBlinds.t) (w : World Ledger.t) :
  let rules := BossBlinds.special_rules self in
  ∃ w',
    ((BossBlinds.apply_boss_rules self w = (Ok tt, w') ∧
      length (stdout w') = (length (stdout w) + length rules)%nat) ∨
     (BossBlinds.apply_boss_rules self w = (Raise OverflowError, w') ∧
      (length (stdout w') < length (stdout w) + length rules)%nat)) ∧
    only_chips_and_bet_change (target w) (target w') ∧
    rng w' = rng w.
Proof.
  intros rules. subst rules. unfold BossBlinds.apply_boss_rules.
  match goal with
  | |- context [for_each ?xs ?body] =>
      destruct (for_each_outcome
                  (λ (n : nat) (v : World Ledger.t),
                     only_chips_and_bet_change (target w) (target v) ∧
                     length (stdout v) = (length (stdout w) + n)%nat ∧
                     rng v = rng w)
                  body xs) with (n := 0%nat) (w := w)
        as [(w' & Hrun & Hframe & Hlen & Hrng)
           |(w' & k & Hrun & Hk & Hframe & Hlen & Hrng)]
  end.
  - intros [rule value] n v _ (Hframe & Hlen & Hrng).
    repeat case_bool_decide.
    + match goal with
      | |- context [(iadd ?f ?s ?x ≫= λ _, emit ?l) v] =>
          destruct (iadd_emit_cases f s x l v) as [(total & _ & ->)|[_ ->]]
      end; [left|by right].
      eexists. split; [reflexivity|]. cbn. split; [|split; [|done]].
      * by eapply only_chips_and_bet_change_trans; [exact Hframe|repeat split].
      * rewrite length_app, Hlen. cbn. lia.
    + left. eexists. split; [reflexivity|]. cbn. split; [|split; [|done]].
      * by eapply only_chips_and_bet_change_trans; [exact Hframe|repeat split].
      * rewrite length_app, Hlen. cbn. lia.
    + left. eexists. split; [reflexivity|]. cbn. split; [|split; [|done]].
      * by eapply only_chips_and_bet_change_trans; [exact Hframe|repeat split].
      * rewrite length_app, Hlen. cbn. lia.
  - split; [apply only_chips_and_bet_change_refl|]. split; [lia|done].
  - exists w'. split; [|done]. left. split; [done|]. lia.
  - exists w'. split; [|done]. right. split; [done|]. lia.
Qed.

Lemma invoke_step (c : boss_call) (w : World (BossBlinds.t * Ledger.t)) :
  ∃ w',
    (invoke c w = (Ok tt, w') ∨
     (c = CallApplyRules ∧ invoke c w = (Raise OverflowError, w'))) ∧
    boss_step (target w).1 (target w').1.
Proof.
  destruct c; cbn.
  - eexists. split; [left; reflexivity|]. left. by exists true.
  - eexists. split; [left; reflexivity|]. left. by exists false.
  - unfold on_boss, focus. set (wb := mkWorld _ _ _).
    destruct (BossBlinds.boss_mode_active (target wb)) eqn:Hmode.
    + destruct (Z.lt_ge_cases
                  (BossBlinds.round_counter (target wb) + 1)
                  (BossBlinds.difficulty_level (target wb)
                   * BossBlinds.escalation_rate (target wb))) as [Hlt|Hge].
      * rewrite (increase_below wb Hmode Hlt). eexists.
        split; [left; reflexivity|]. right. left. by repeat split.
      * destruct (increase_fires wb Hmode Hge) as [out ->]. eexists.
        split; [left; reflexivity|]. right. right. left. by repeat split.
    + rewrite (increase_inactive wb Hmode). eexists.
      split; [left; reflexivity|]. by repeat right.
  - unfold mbind, M_bind, get, on_ledger, focus; cbn.
    set (wg := mkWorld _ _ _).
    destruct (apply_boss_rules_outcome (target w).1 wg)
      as (w' & [[-> _]|[-> _]] & _).
    + eexists. split; [left; reflexivity|]. by repeat right.
    + eexists. split; [right; split; reflexivity|]. by repeat right.
Qed.

(** A sequence of calls runs until one raises; only [apply_boss_rules]
    can, and only [OverflowError].  An invariant of single steps holds
    in the state the sequence leaves, whether it ran to the end or not. *)
Lemma invoke_sequence (P : BossBlinds.t → Prop) :
  (∀ b b', P b → boss_step b b' → P b') →
  ∀ (calls : list boss_call) (w : World (BossBlinds.t * Ledger.t)),
    P (target w).1 →
    ∃ w',
      (for_each calls invoke w = (Ok tt, w') ∨
       (CallApplyRules ∈ calls ∧
        for_each calls invoke w = (Raise OverflowError, w'))) ∧
      P (target w').1.
Proof.
  intros Hstep calls. induction calls as [|c calls IH]; intros w HP.
  - exists w. split; [by left|done].
  - destruct (invoke_step c w) as (w1 & [Hcall|[-> Hcall]] & Hb).
    + destruct (IH w1 (Hstep _ _ HP Hb)) as (w2 & [Hrest|[Hin Hrest]] & HP2);
        exists w2; rewrite (for_each_cons _ _ _ _ _ Hcall);
        (split; [|done]); [by left|right; split; [by right|done]].
    + exists w1. rewrite (for_each_raise _ _ _ _ _ _ Hcall).
      split; [right; split; [left|done]|]. by eapply Hstep.
Qed.

(** C5, for a [BossBlinds] constructed with both blinds within the cap.
    Every sequence of [activate_boss_mode], [deactivate_boss_mode],
    [increase_boss_blinds] and [apply_boss_rules] calls runs to its end
    or stops at an [OverflowError] raised by an [apply_boss_rules] call,
    and in the state it leaves [small_blind] and [big_blind] do not
    exceed [max_blind_cap]. *)
Theorem BossBlinds_blinds_stay_capped
    (small_blind big_blind escalation_rate max_blind_cap : Z)
    (difficulty_level : option Z)
    (special_rules : option (list (string * num))) :
  small_blind ≤ max_blind_cap →
  big_blind ≤ max_blind_cap →
  ∀ (calls : list boss_call) (g : Ledger.t) out r,
    let b := BossBlinds.__init__ small_blind big_blind escalation_rate
               max_blind_cap difficulty_level special_rules in
    let outcome := for_each calls invoke (mkWorld (b, g) out r) in
    (outcome.1 = Ok tt ∨
     (CallApplyRules ∈ calls ∧ outcome.1 = Raise OverflowError)) ∧
    blinds_capped (target outcome.2).1.
Proof.
  intros Hsmall Hbig calls g out r b outcome. subst outcome.
  destruct (invoke_sequence blinds_capped) with (calls := calls)
    (w := mkWorld (b, g) out r) as (w' & Hrun & Hcap).
  - intros x x' [Hcs Hcb] [[flag ->]|[(_ & _ & ->)|[(_ & _ & ->)| ->]]];
      unfold blinds_capped; cbn; split; lia.
  - by split.
  - destruct Hrun as [->|[Hin ->]]; (split; [|done]); [by left|by right].
Qed.

Lemma BossBlinds_blinds_stay_capped_witness :
  let outcome :=
    for_each [CallActivate; CallIncrease; CallApplyRules; CallIncrease;
              CallDeactivate; CallIncrease]
      invoke
      (sample_world
         (BossBlinds.__init__ 98 99 1 100 None
            (Some [("bonus_chips", PyInt 4); ("double_bet", PyInt 1)]),
          sample_ledger)) in
  outcome.1 = Ok tt ∧ blinds_capped (target outcome.2).1.
Proof.
  split; [reflexivity|].
  apply (BossBlinds_blinds_stay_capped 98 99 1 100 None
           (Some [("bonus_chips", PyInt 4); ("double_bet", PyInt 1)]));
    vm_compute; discriminate.
Defined.

(** C5 as first stated fails at construction: [BossBlinds(200, 300, 1,
    100)] stores blinds above its cap, and with no call made they are
    still 200 and 300. *)
Lemma BossBlinds_uncapped_construction_counterexample :
  let b := BossBlinds.__init__ 200 300 1 100 None None in
  let outcome := for_each [] invoke (sample_world (b, sample_ledger)) in
  outcome.1 = Ok tt ∧ ¬ blinds_capped (target outcome.2).1.
Proof.
  split; [reflexivity|]. intros [Hsmall _]. vm_compute in Hsmall. done.
Qed.

(** * Further properties of the game objects *)

(** ** Loops *)

Lemma for_each_invariant {St A} (P : nat → World St → Prop)
    (body : A → M St unit) (xs : list A) :
  (∀ x n w, x ∈ xs → P n w → ∃ w', body x w = (Ok tt, w') ∧ P (S n) w') →
  ∀ n w, P n w →
    ∃ w', for_each xs body w = (Ok tt, w') ∧ P (n + length xs)%nat w'.
Proof.
  induction xs as [|x xs IH]; intros Hbody n w HP.
  - exists w. split; [done|]. by rewrite Nat.add_0_r.
  - destruct (Hbody x n w) as (w1 & Hx & HP1); [left|done|].
    destruct (IH (λ y k v Hy, Hbody y k v (list_elem_of_further _ _ _ Hy))
                 (S n) w1 HP1) as (w2 & Hrest & HP2).
    exists w2. rewrite (for_each_cons _ _ _ _ _ Hx). split; [done|].
    cbn [length]. by rewrite Nat.add_succ_r.
Qed.

Lemma for_each_returns {St A} (body : A → M St unit) (xs : list A) :
  (∀ x w, x ∈ xs → ∃ w', body x w = (Ok tt, w')) →
  ∀ w, ∃ w', for_each xs body w = (Ok tt, w').
Proof.
  intros Hbody w.
  destruct (for_each_invariant (λ _ _, True) body xs) with (n := 0%nat) (w := w)
    as (w' & Hrun & _); [|done|by exists w'].
  intros x n v Hx _. destruct (Hbody x v Hx) as [v' Hv]. by exists v'.
Qed.

Lemma repeat_call_invariant {St} (P : nat → World St → Prop) (m : M St unit) :
  (∀ n w, P n w → ∃ w', m w = (Ok tt, w') ∧ P (S n) w') →
  ∀ k n w, P n w →
    ∃ w', repeat_call k m w = (Ok tt, w') ∧ P (n + k)%nat w'.
Proof.
  intros Hm. induction k as [|k IH]; intros n w HP.
  - exists w. split; [done|]. by rewrite Nat.add_0_r.
  - destruct (Hm n w HP) as (w1 & Hcall & HP1).
    destruct (IH (S n) w1 HP1) as (w2 & Hrest & HP2).
    exists w2. rewrite (repeat_call_S _ _ _ _ Hcall). split; [done|].
    by rewrite Nat.add_succ_r.
Qed.

(** [loop_invariant P w pat]: run the [for_each] loop of the goal from
    [w] under the invariant [P], leaving the loop body and the initial
    state as subgoals. *)
Tactic Notation "loop_invariant" constr(P) constr(w)
    "as" simple_intropattern(pat) :=
  match goal with
  | |- context [for_each ?xs ?body] =>
      destruct (for_each_invariant P body xs) with (n := 0%nat) (w := w)
        as pat
  end.

(** ** Effects and cards *)

Lemma Effect_apply_step (self : Effect.t) (w : World Ledger.t) :
  (∃ (l : line) (g' : Ledger.t),
     Effect.apply self w = (Ok tt, mkWorld g' (stdout w ++ [l]) (rng w)) ∧
     only_chips_and_bet_change (target w) g') ∨
  (∃ m,
     Effect.effect_type self = "increase_chips" ∧
     Effect.value self = Some m ∧
     num_add (Ledger.chips (target w)) m = Raise OverflowError ∧
     Effect.apply self w = (Raise OverflowError, w)).
Proof.
  destruct self as [kind [v|]]; unfold Effect.apply;
    cbn [Effect.effect_type Effect.value].
  - case_bool_decide as Hkind.
    + match goal with
      | |- context [(iadd ?f ?s ?x ≫= λ _, emit ?l) w] =>
          destruct (iadd_emit_cases f s x l w) as [(total & _ & ->)|[E ->]]
      end.
      * left. do 2 eexists. split; [reflexivity|by repeat split].
      * right. by exists v.
    + left. repeat case_bool_decide; run;
        (do 2 eexists; split; [reflexivity|by repeat split]).
  - left. destruct (bool_decide (kind = "increase_chips"));
      repeat case_bool_decide; run;
      (do 2 eexists; split; [reflexivity|by repeat split]).
Qed.

(** X1.  Whatever the effect and the ledger, [Effect.apply] does one of
    two things.  Either it returns, having printed exactly one line,
    drawn nothing from the random source and changed no ledger field
    other than [chips] and [double_bet], without clearing [double_bet].
    Or the effect is an [increase_chips] with a magnitude whose addition
    to [chips] raises [OverflowError]: then that exception leaves
    [apply] and the world is as it was, nothing printed. *)
Theorem Effect_apply_frame (self : Effect.t) (w : World Ledger.t) :
  (∃ (l : line) (g' : Ledger.t),
     Effect.apply self w = (Ok tt, mkWorld g' (stdout w ++ [l]) (rng w)) ∧
     only_chips_and_bet_change (target w) g') ∨
  (∃ m,
     Effect.effect_type self = "increase_chips" ∧
     Effect.value self = Some m ∧
     num_add (Ledger.chips (target w)) m = Raise OverflowError ∧
     Effect.apply self w = (Raise OverflowError, w)).
Proof. apply Effect_apply_step. Qed.

Lemma Card_apply_effects_steps (self : Card.t) (w : World Ledger.t) :
  ∃ w',
    ((Card.apply_effects self w = (Ok tt, w') ∧
      length (stdout w') =
        (length (stdout w) + length (Card.effects self))%nat) ∨
     (Card.apply_effects self w = (Raise OverflowError, w') ∧
      (length (stdout w') <
         length (stdout w) + length (Card.effects self))%nat)) ∧
    only_chips_and_bet_change (target w) (target w') ∧
    rng w' = rng w.
Proof.
  unfold Card.apply_effects.
  destruct (for_each_outcome
              (λ n v, only_chips_and_bet_change (target w) (target v) ∧
                      length (stdout v) = (length (stdout w) + n)%nat ∧
                      rng v = rng w)
              Effect.apply (Card.effects self)) with (n := 0%nat) (w := w)
    as [(w' & Hrun & Hframe & Hlen & Hrng)
       |(w' & k & Hrun & Hk & Hframe & Hlen & Hrng)].
  - intros e n v _ (Hframe & Hlen & Hrng).
    destruct (Effect_apply_step e v)
      as [(l & g' & -> & Hstep)|(m & _ & _ & _ & ->)]; [left|by right].
    eexists. split; [reflexivity|]. cbn. split; [|split].
    + by eapply only_chips_and_bet_change_trans.
    + rewrite length_app, Hlen. cbn. lia.
    + done.
  - split; [apply only_chips_and_bet_change_refl|]. split; [lia|done].
  - exists w'. split; [|done]. left. split; [done|]. lia.
  - exists w'. split; [|done]. right. split; [done|]. lia.
Qed.

Lemma Card_apply_effects_returns (self : Card.t) (w : World Ledger.t) :
  (∀ e, e ∈ Card.effects self → Effect.effect_type e ≠ "increase_chips") →
  ∃ w', Card.apply_effects self w = (Ok tt, w').
Proof.
  intros Hkinds. apply for_each_returns. intros e v He.
  destruct (Effect_apply_step e v)
    as [(l & g' & -> & _)|(m & Hkind & _)]; [by eexists|].
  by destruct (Hkinds e He).
Qed.

(** X2.  [Card.apply_effects] applies the effects in order until one
    raises.  Either it returns, having printed one line per effect, or
    it stops at an [OverflowError] of an [increase_chips] addition,
    having printed fewer lines than there are effects.  In both cases no
    ledger field other than [chips] and [double_bet] has changed and
    nothing was drawn from the random source.  It returns whenever no
    effect is an [increase_chips], and a card constructed without
    effects ([None] or the empty list) leaves the whole world as it
    was. *)
Theorem Card_apply_effects_frame :
  (∀ (self : Card.t) (w : World Ledger.t),
     let out := Card.apply_effects self w in
     let lines := (length (stdout w) + length (Card.effects self))%nat in
     ((out.1 = Ok tt ∧ length (stdout out.2) = lines) ∨
      (out.1 = Raise OverflowError ∧ (length (stdout out.2) < lines)%nat)) ∧
     only_chips_and_bet_change (target w) (target out.2) ∧
     rng out.2 = rng w ∧
     ((∀ e, e ∈ Card.effects self →
            Effect.effect_type e ≠ "increase_chips") →
      out.1 = Ok tt)) ∧
  (∀ name suit chip_value (w : World Ledger.t),
     Card.apply_effects (Card.__init__ name suit chip_value None) w
       = (Ok tt, w) ∧
     Card.apply_effects (Card.__init__ name suit chip_value (Some [])) w
       = (Ok tt, w)).
Proof.
  split; [|done]. intros self w. cbv zeta.
  destruct (Card_apply_effects_steps self w)
    as (w' & Hrun & Hframe & Hrng).
  split; [|split; [|split]].
  - destruct Hrun as [[-> Hlen]|[-> Hlen]]; [by left|by right].
  - by destruct Hrun as [[-> _]|[-> _]].
  - by destruct Hrun as [[-> _]|[-> _]].
  - intros Hkinds.
    destruct (Card_apply_effects_returns self w Hkinds) as [w'' ->]. done.
Qed.

(** X3.  A card whose effects are [increase_chips] with the integer
    magnitudes [ms], applied to a ledger holding [c] chips, leaves
    [c + sum ms] chips and every other field as it was, and prints one
    ["m chips added!"] line per effect, in order. *)
Theorem Card_apply_effects_adds_up name suit chip_value (ms : list Z)
    (c : Z) (w : World Ledger.t) :
  Ledger.chips (target w) = PyInt c →
  Card.apply_effects
    (Card.__init__ name suit chip_value (Some (chip_effects ms))) w
  = (Ok tt,
     mkWorld (Ledger.set_chips (PyInt (c + foldr Z.add 0 ms)) (target w))
       (stdout w ++ ((λ m, [Num (PyInt m); Lit " chips added!"]) <$> ms))
       (rng w)).
Proof.
  unfold Card.apply_effects, Card.__init__; cbn.
  revert c w. induction ms as [|m ms IH]; intros c w Hc.
  - cbn. rewrite Z.add_0_r, app_nil_r, <- Hc. by destruct w as [[] ? ?].
  - cbn [chip_effects fmap list_fmap foldr].
    assert (num_add (Ledger.chips (target w)) (PyInt m) = Ok (PyInt (c + m)))
      as Hadd by (by rewrite Hc).
    rewrite (for_each_cons _ _ _ _ _ (Effect_apply_increase _ _ w Hadd)).
    rewrite (IH (c + m)); [|done]. cbn.
    rewrite <- app_assoc. cbn. rewrite <- Z.add_assoc. reflexivity.
Qed.

Lemma Card_apply_effects_adds_up_witness :
  Ledger.chips
    (target (Card.apply_effects
               (Card.__init__ "Ace" "Spades" 11 (Some (chip_effects [7; 5])))
               (sample_world sample_ledger)).2)
  = PyInt 15.
Proof.
  rewrite (Card_apply_effects_adds_up "Ace" "Spades" 11 [7; 5] 3
             (sample_world sample_ledger)); reflexivity.
Defined.

(** ** Decks and vouchers *)

Lemma deck_rules_frame_trans g1 g2 g3 :
  deck_rules_frame g1 g2 → deck_rules_frame g2 g3 → deck_rules_frame g1 g3.
Proof. intros (?&?&?&?&?) (?&?&?&?&?). repeat split; congruence. Qed.

Lemma BalatroDeck_frame_run (self : BalatroDeck.t) (w : World Ledger.t) :
  ∃ w',
    ((BalatroDeck.apply_special_rules self w = (Ok tt, w') ∧
      length (stdout w') =
        (length (stdout w) + length (BalatroDeck.special_rules self))%nat) ∨
     (BalatroDeck.apply_special_rules self w = (Raise OverflowError, w') ∧
      (length (stdout w') <
         length (stdout w) + length (BalatroDeck.special_rules self))%nat)) ∧
    deck_rules_frame (target w) (target w') ∧
    rng w' = rng w.
Proof.
  unfold BalatroDeck.apply_special_rules.
  match goal with
  | |- context [for_each ?xs ?body] =>
      destruct (for_each_outcome
                  (λ (n : nat) (v : World Ledger.t),
                     deck_rules_frame (target w) (target v) ∧
                     length (stdout v) = (length (stdout w) + n)%nat ∧
                     rng v = rng w)
                  body xs) with (n := 0%nat) (w := w)
        as [(w' & Hrun & Hframe & Hlen & Hrng)
           |(w' & k & Hrun & Hk & Hframe & Hlen & Hrng)]
  end.
  - intros [rule value] n v _ (Hframe & Hlen & Hrng).
    repeat case_bool_decide; try (iadd_step v; [|by right]); left;
      (eexists; split; [reflexivity|]; cbn;
       split; [by eapply deck_rules_frame_trans; [exact Hframe|repeat split]|];
       split; [rewrite length_app, Hlen; cbn; lia|done]).
  - split; [by repeat split|]. split; [lia|done].
  - exists w'. split; [|done]. left. split; [done|]. lia.
  - exists w'. split; [|done]. right. split; [done|]. lia.
Qed.

Lemma BalatroDeck_unknown_run (self : BalatroDeck.t) (w : World Ledger.t) :
  (∀ rule value, (rule, value) ∈ BalatroDeck.special_rules self →
     rule ∉ ["bonus_chips"; "extra_multiplier"; "reroll_bonus"]) →
  ∃ w',
    BalatroDeck.apply_special_rules self w = (Ok tt, w') ∧
    target w' = target w.
Proof.
  intros Hunknown. unfold BalatroDeck.apply_special_rules.
  loop_invariant (λ (n : nat) (v : World Ledger.t), target v = target w) w
    as (w' & Hrun & Hsame);
    [| |exists w'; split; [exact Hrun|exact Hsame]]; [|done].
  intros [rule value] n v Hin Hsame.
  pose proof (Hunknown rule value Hin) as Hnot.
  repeat case_bool_decide;
    try (exfalso; apply Hnot; subst rule; repeat first [by left | right]).
  eexists. by split.
Qed.

(** X4.  [BalatroDeck.apply_special_rules] applies the rules in order
    until one raises.  Either it returns, having printed one line per
    rule, or it stops at the [OverflowError] of an addition, having
    printed fewer lines than there are rules.  In both cases it has
    written no field other than [chips], [base_multiplier] and
    [rerolls_remaining] and drawn nothing.  A deck built without rules
    leaves the world untouched, and a deck all of whose rules have other
    names returns and leaves the ledger untouched. *)
Theorem BalatroDeck_apply_special_rules_frame :
  (∀ (self : BalatroDeck.t) (w : World Ledger.t),
     let out := BalatroDeck.apply_special_rules self w in
     let lines :=
       (length (stdout w) + length (BalatroDeck.special_rules self))%nat in
     ((out.1 = Ok tt ∧ length (stdout out.2) = lines) ∨
      (out.1 = Raise OverflowError ∧ (length (stdout out.2) < lines)%nat)) ∧
     deck_rules_frame (target w) (target out.2) ∧
     rng out.2 = rng w ∧
     ((∀ rule value, (rule, value) ∈ BalatroDeck.special_rules self →
         rule ∉ ["bonus_chips"; "extra_multiplier"; "reroll_bonus"]) →
      out.1 = Ok tt ∧ target out.2 = target w)) ∧
  (∀ name description num_cards joker_slots consumable_slots
     (w : World Ledger.t),
     BalatroDeck.apply_special_rules
       (BalatroDeck.__init__ name description num_cards joker_slots
          consumable_slots None) w
     = (Ok tt, w)).
Proof.
  split; [|done]. intros self w. cbv zeta.
  destruct (BalatroDeck_frame_run self w) as (w' & Hrun & Hframe & Hrng).
  split; [|split; [|split]].
  - destruct Hrun as [[-> Hlen]|[-> Hlen]]; [by left|by right].
  - by destruct Hrun as [[-> _]|[-> _]].
  - by destruct Hrun as [[-> _]|[-> _]].
  - intros Hunknown.
    destruct (BalatroDeck_unknown_run self w Hunknown) as (w'' & -> & Hsame).
    done.
Qed.

Lemma BalatroDeck_apply_special_rules_frame_witness :
  let out :=
    BalatroDeck.apply_special_rules
      (BalatroDeck.__init__ "Red Deck" "plain" 52 5 2
         (Some [("free_money", PyInt 4); ("Bonus_Chips", PyInt 9)]))
      (sample_world sample_ledger) in
  out.1 = Ok tt ∧ target out.2 = sample_ledger.
Proof.
  destruct BalatroDeck_apply_special_rules_frame as [Hany _].
  destruct (Hany (BalatroDeck.__init__ "Red Deck" "plain" 52 5 2
               (Some [("free_money", PyInt 4); ("Bonus_Chips", PyInt 9)]))
              (sample_world sample_ledger)) as (_ & _ & _ & Hsame).
  apply Hsame. intros rule value Hin. apply list_elem_of_In in Hin. cbn in Hin.
  destruct Hin as [[= <- <-]|[[= <- <-]|[]]];
    intros Hbad; apply list_elem_of_In in Hbad; cbn in Hbad;
    vm_compute in Hbad; intuition discriminate.
Defined.

(** X5.  [Voucher.apply_effect] does one of two things.  Either it
    returns, having printed exactly one line and written none of
    [multiplier], [base_multiplier], [hand_size] and [double_bet]; when
    [effect_type] is none of the four names it dispatches on, this is
    what happens, and the ledger is left as it was.  Or [effect_type] is
    one of the four names and the addition raises [OverflowError]: then
    that exception leaves [apply_effect] and the world is as it was,
    nothing printed. *)
Theorem Voucher_apply_effect_frame (self : Voucher.t) (w : World Ledger.t) :
  let dispatched := ["Discount"; "Reroll Bonus"; "Shop Slots"; "Bonus Chips"] in
  (∃ (l : line) (g' : Ledger.t),
     Voucher.apply_effect self w =
       (Ok tt, mkWorld g' (stdout w ++ [l]) (rng w)) ∧
     voucher_frame (target w) g' ∧
     (Voucher.effect_type self ∉ dispatched → g' = target w)) ∨
  (Voucher.effect_type self ∈ dispatched ∧
   Voucher.apply_effect self w = (Raise OverflowError, w)).
Proof.
  cbv zeta. unfold Voucher.apply_effect.
  repeat case_bool_decide; try (iadd_step w; [left|right]);
    try (split; [|done];
         match goal with H : Voucher.effect_type self = _ |- _ => rewrite H end;
         repeat first [by left | right]);
    try left;
    (do 2 eexists; split; [reflexivity|]; split; [by repeat split|]);
    try done;
    intros Hnot; exfalso; apply Hnot;
    match goal with H : Voucher.effect_type self = _ |- _ => rewrite H end;
    repeat first [by left | right].
Qed.

Lemma Voucher_apply_effect_frame_witness :
  ∃ l,
    Voucher.apply_effect
      (Voucher.__init__ "Coupon" (PyInt 10) "typo" "Common" "discount"
         (PyInt 5))
      (sample_world sample_ledger)
    = (Ok tt, mkWorld sample_ledger [l] (λ i, i)).
Proof.
  destruct (Voucher_apply_effect_frame
              (Voucher.__init__ "Coupon" (PyInt 10) "typo" "Common" "discount"
                 (PyInt 5))
              (sample_world sample_ledger))
    as [(l & g' & E & _ & Hsame)|[Hbad _]].
  - exists l. rewrite E, Hsame; [reflexivity|].
    intros Hbad. apply list_elem_of_In in Hbad. vm_compute in Hbad.
    intuition discriminate.
  - exfalso. apply list_elem_of_In in Hbad. vm_compute in Hbad.
    intuition discriminate.
Defined.

Lemma Voucher_bonus_chips_run name cost description rarity (v total : num) w :
  num_add (Ledger.chips (target w)) v = Ok total →
  Voucher.apply_effect
    (Voucher.__init__ name cost description rarity "Bonus Chips" v) w =
    (Ok tt,
     mkWorld (Ledger.set_chips total (target w))
       (stdout w ++ [[Str name; Lit " applied: +"; Num v; Lit " chips."]])
       (rng w)).
Proof.
  intros E. unfold Voucher.apply_effect, Voucher.__init__.
  cbn [Voucher.effect_type Voucher.effect_value Voucher.name].
  repeat case_bool_decide; try done.
  by rewrite (bind_ok _ _ _ _ _ (iadd_ok _ _ _ _ _ E)).
Qed.

Lemma Voucher_discount_run name cost description rarity (v total : num) w :
  num_add (Ledger.shop_discount (target w)) v = Ok total →
  Voucher.apply_effect
    (Voucher.__init__ name cost description rarity "Discount" v) w =
    (Ok tt,
     mkWorld (Ledger.set_shop_discount total (target w))
       (stdout w ++ [[Str name; Lit " applied: Shop items cost "; Num v;
                      Lit "% less."]])
       (rng w)).
Proof.
  intros E. unfold Voucher.apply_effect, Voucher.__init__.
  cbn [Voucher.effect_type Voucher.effect_value Voucher.name].
  repeat case_bool_decide; try done.
  by rewrite (bind_ok _ _ _ _ _ (iadd_ok _ _ _ _ _ E)).
Qed.

(** X6.  Nothing marks a voucher as used: applying a ["Bonus Chips"]
    voucher of integer value [v] [n] times to a ledger holding [c]
    chips leaves [c + n * v] chips, and a ["Discount"] voucher applied
    [n] times adds [n * v] to an integer [shop_discount]; every other
    field stays as it was. *)
Theorem Voucher_apply_effect_accumulates name cost description rarity
    (v : Z) (n : nat) (w : World Ledger.t) :
  (∀ c, Ledger.chips (target w) = PyInt c →
     let voucher :=
       Voucher.__init__ name cost description rarity "Bonus Chips" (PyInt v) in
     let out := repeat_call n (Voucher.apply_effect voucher) w in
     out.1 = Ok tt ∧
     target out.2 =
       Ledger.set_chips (PyInt (c + Z.of_nat n * v)) (target w)) ∧
  (∀ d, Ledger.shop_discount (target w) = PyInt d →
     let voucher :=
       Voucher.__init__ name cost description rarity "Discount" (PyInt v) in
     let out := repeat_call n (Voucher.apply_effect voucher) w in
     out.1 = Ok tt ∧
     target out.2 =
       Ledger.set_shop_discount (PyInt (d + Z.of_nat n * v)) (target w)).
Proof.
  split.
  - intros c Hc voucher out. subst out.
    edestruct (repeat_call_invariant
                 (λ k u, target u =
                           Ledger.set_chips (PyInt (c + Z.of_nat k * v))
                             (target w))
                 (Voucher.apply_effect voucher))
      with (k := n) (n := 0%nat) (w := w) as (w' & -> & Hw').
    + intros k u Hu. eexists.
      split; [apply Voucher_bonus_chips_run; rewrite Hu; apply num_add_int|].
      cbn. rewrite Hu. unfold Ledger.set_chips; cbn. do 2 f_equal. lia.
    + cbn. rewrite Z.add_0_r, <- Hc. by destruct w as [[] ? ?].
    + by rewrite Nat.add_0_l in Hw'.
  - intros d Hd voucher out. subst out.
    edestruct (repeat_call_invariant
                 (λ k u, target u =
                           Ledger.set_shop_discount
                             (PyInt (d + Z.of_nat k * v)) (target w))
                 (Voucher.apply_effect voucher))
      with (k := n) (n := 0%nat) (w := w) as (w' & -> & Hw').
    + intros k u Hu. eexists.
      split; [apply Voucher_discount_run; rewrite Hu; apply num_add_int|].
      cbn. rewrite Hu. unfold Ledger.set_shop_discount; cbn. do 2 f_equal. lia.
    + cbn. rewrite Z.add_0_r, <- Hd. by destruct w as [[] ? ?].
    + by rewrite Nat.add_0_l in Hw'.
Qed.

Lemma Voucher_apply_effect_accumulates_witness :
  Ledger.chips
    (target
       (repeat_call 3
          (Voucher.apply_effect
             (Voucher.__init__ "Stack" (PyInt 10) "more chips" "Rare"
                "Bonus Chips" (PyInt 4)))
          (sample_world sample_ledger)).2)
  = PyInt 15.
Proof.
  destruct (Voucher_apply_effect_accumulates "Stack" (PyInt 10) "more chips"
              "Rare" 4 3 (sample_world sample_ledger)) as [Hchips _].
  destruct (Hchips 3) as [_ ->]; reflexivity.
Defined.

(** ** Consumables *)

(** X7.  A tarot card built by its constructor, applied to a ledger.
    When [buff_type] is none of ["Multiplier"], ["Chips"],
    ["Hand Size"], [apply_effect] returns, prints its
    ["... increased by ..."] line all the same, and leaves the ledger as
    it was.  With one of the three names it adds the buff value to that
    field: when the sum is formed, that field alone is replaced by it
    and the line is printed; when the addition raises, which it does
    only with [OverflowError], the exception leaves [apply_effect] and
    the world is as it was, nothing printed. *)
Theorem TarotCard_apply_effect_log name cost description rarity
    (buff_type : string) (buff_value : num) (w : World Ledger.t) :
  let card :=
    TarotCard.__init__ name cost description rarity buff_type buff_value in
  let g := target w in
  let printed :=
    stdout w ++ [[Str name; Lit " applied: "; Str buff_type;
                  Lit " increased by "; Num buff_value; Lit "."]] in
  let buffed (field : Ledger.t → num)
        (set_field : num → Ledger.t → Ledger.t) :=
    match num_add (field g) buff_value with
    | Ok total =>
        TarotCard.apply_effect card w =
          (Ok tt, mkWorld (set_field total g) printed (rng w))
    | Raise e =>
        e = OverflowError ∧ TarotCard.apply_effect card w = (Raise e, w)
    end in
  (buff_type ∉ ["Multiplier"; "Chips"; "Hand Size"] →
   TarotCard.apply_effect card w = (Ok tt, mkWorld g printed (rng w))) ∧
  (buff_type = "Multiplier" →
   buffed Ledger.multiplier Ledger.set_multiplier) ∧
  (buff_type = "Chips" → buffed Ledger.chips Ledger.set_chips) ∧
  (buff_type = "Hand Size" → buffed Ledger.hand_size Ledger.set_hand_size).
Proof.
  cbv zeta. unfold TarotCard.apply_effect, TarotCard.__init__.
  cbn [TarotCard.buff_type TarotCard.buff_value TarotCard.inherited].
  split; [|split; [|split]].
  - intros Hnot.
    rewrite !bool_decide_eq_false_2; [reflexivity|..];
      intros ->; apply Hnot; repeat first [by left | right].
  - intros ->. rewrite bool_decide_eq_true_2 by done.
    destruct (num_add_cases (Ledger.multiplier (target w)) buff_value)
      as [[total E]|E]; rewrite E.
    + by rewrite (bind_ok _ _ _ _ _ (iadd_ok _ _ _ _ _ E)).
    + split; [done|]. by rewrite (bind_raise _ _ _ _ _ (iadd_raise _ _ _ _ _ E)).
  - intros ->. rewrite bool_decide_eq_false_2, bool_decide_eq_true_2 by done.
    destruct (num_add_cases (Ledger.chips (target w)) buff_value)
      as [[total E]|E]; rewrite E.
    + by rewrite (bind_ok _ _ _ _ _ (iadd_ok _ _ _ _ _ E)).
    + split; [done|]. by rewrite (bind_raise _ _ _ _ _ (iadd_raise _ _ _ _ _ E)).
  - intros ->. rewrite !bool_decide_eq_false_2, bool_decide_eq_true_2 by done.
    destruct (num_add_cases (Ledger.hand_size (target w)) buff_value)
      as [[total E]|E]; rewrite E.
    + by rewrite (bind_ok _ _ _ _ _ (iadd_ok _ _ _ _ _ E)).
    + split; [done|]. by rewrite (bind_raise _ _ _ _ _ (iadd_raise _ _ _ _ _ E)).
Qed.

Lemma TarotCard_apply_effect_log_witness :
  (∃ out,
     TarotCard.apply_effect
       (TarotCard.__init__ "The Fool" (PyInt 3) "nothing" "Common" "chips"
          (PyInt 9))
       (sample_world sample_ledger)
     = (Ok tt, mkWorld sample_ledger out (λ i, i))) ∧
  Ledger.chips
    (target
       (TarotCard.apply_effect
          (TarotCard.__init__ "The Sun" (PyInt 3) "chips" "Common" "Chips"
             (PyInt 9))
          (sample_world sample_ledger)).2)
  = PyInt 12 ∧
  TarotCard.apply_effect
    (TarotCard.__init__ "The Sun" (PyInt 3) "chips" "Common" "Chips"
       (PyFloat half))
    (sample_world rich_ledger)
  = (Raise OverflowError, sample_world rich_ledger).
Proof.
  split; [|split].
  - destruct (TarotCard_apply_effect_log "The Fool" (PyInt 3) "nothing"
                "Common" "chips" (PyInt 9) (sample_world sample_ledger))
      as (Hsame & _).
    eexists. apply Hsame.
    intros Hbad. apply list_elem_of_In in Hbad. vm_compute in Hbad.
    clear Hsame. intuition discriminate.
  - destruct (TarotCard_apply_effect_log "The Sun" (PyInt 3) "chips" "Common"
                "Chips" (PyInt 9) (sample_world sample_ledger))
      as (_ & _ & Hchips & _).
    specialize (Hchips eq_refl).
    change (Ledger.chips (target (sample_world sample_ledger)))
      with (PyInt 3) in Hchips.
    rewrite num_add_int in Hchips. rewrite Hchips. reflexivity.
  - destruct (TarotCard_apply_effect_log "The Sun" (PyInt 3) "chips" "Common"
                "Chips" (PyFloat half) (sample_world rich_ledger))
      as (_ & _ & Hraise & _).
    specialize (Hraise eq_refl).
    change (Ledger.chips (target (sample_world rich_ledger)))
      with (PyInt huge) in Hraise.
    rewrite num_add_huge_half in Hraise. apply Hraise.
Defined.

(** X8.  Applying a ["Double Chips"] planet card [n] times to a ledger
    holding the integer [c] chips leaves [c * 2^n] chips, and a
    ["Double Multiplier"] card does the same to an integer multiplier;
    every other field stays as it was. *)
Theorem PlanetCard_apply_effect_doubles name cost description rarity
    (n : nat) (w : World Ledger.t) :
  (∀ c, Ledger.chips (target w) = PyInt c →
     let card :=
       PlanetCard.__init__ name cost description rarity "Double Chips" in
     let out := repeat_call n (PlanetCard.apply_effect card) w in
     out.1 = Ok tt ∧
     target out.2 = Ledger.set_chips (PyInt (c * 2 ^ Z.of_nat n)) (target w)) ∧
  (∀ m, Ledger.multiplier (target w) = PyInt m →
     let card :=
       PlanetCard.__init__ name cost description rarity "Double Multiplier" in
     let out := repeat_call n (PlanetCard.apply_effect card) w in
     out.1 = Ok tt ∧
     target out.2 =
       Ledger.set_multiplier (PyInt (m * 2 ^ Z.of_nat n)) (target w)).
Proof.
  split.
  - intros c Hc card out. subst out.
    edestruct (repeat_call_invariant
                 (λ k u, target u =
                           Ledger.set_chips (PyInt (c * 2 ^ Z.of_nat k))
                             (target w))
                 (PlanetCard.apply_effect card))
      with (k := n) (n := 0%nat) (w := w) as (w' & -> & Hw').
    + intros k u Hu. eexists. split; [reflexivity|]. cbn -[Z.pow]. rewrite Hu.
      cbn -[Z.pow]. unfold Ledger.set_chips; cbn -[Z.pow]. do 2 f_equal.
      rewrite Nat2Z.inj_succ, Z.pow_succ_r by lia. lia.
    + cbn. rewrite Z.mul_1_r, <- Hc. by destruct w as [[] ? ?].
    + by rewrite Nat.add_0_l in Hw'.
  - intros m Hm card out. subst out.
    edestruct (repeat_call_invariant
                 (λ k u, target u =
                           Ledger.set_multiplier (PyInt (m * 2 ^ Z.of_nat k))
                             (target w))
                 (PlanetCard.apply_effect card))
      with (k := n) (n := 0%nat) (w := w) as (w' & -> & Hw').
    + intros k u Hu. eexists. split; [reflexivity|]. cbn -[Z.pow]. rewrite Hu.
      cbn -[Z.pow]. unfold Ledger.set_multiplier; cbn -[Z.pow]. do 2 f_equal.
      rewrite Nat2Z.inj_succ, Z.pow_succ_r by lia. lia.
    + cbn. rewrite Z.mul_1_r, <- Hm. by destruct w as [[] ? ?].
    + by rewrite Nat.add_0_l in Hw'.
Qed.

Lemma PlanetCard_apply_effect_doubles_witness :
  Ledger.chips
    (target
       (repeat_call 4
          (PlanetCard.apply_effect
             (PlanetCard.__init__ "Jupiter" (PyInt 3) "x2" "Rare"
                "Double Chips"))
          (sample_world sample_ledger)).2)
  = PyInt 48.
Proof.
  destruct (PlanetCard_apply_effect_doubles "Jupiter" (PyInt 3) "x2" "Rare" 4
              (sample_world sample_ledger)) as [Hchips _].
  destruct (Hchips 3) as [_ ->]; reflexivity.
Defined.

(** X9.  [SpectralCard.apply_effect] runs the injected callback first.
    If the callback raises, the same exception leaves [apply_effect],
    nothing more is printed, and the ledger is as the callback left it;
    if it returns, the ledger is as the callback left it and exactly
    the card's ["Effect active for ... turns."] line is appended. *)
Theorem SpectralCard_apply_effect_propagates name cost description rarity
    (duration : Z) (effect_function : M Ledger.t unit) (w : World Ledger.t) :
  let card :=
    SpectralCard.__init__ name cost description rarity duration
      effect_function in
  match effect_function w with
  | (Ok _, w') =>
      SpectralCard.apply_effect card w =
        (Ok tt,
         mkWorld (target w')
           (stdout w' ++ [[Str name; Lit " applied: Effect active for ";
                           Num (PyInt duration); Lit " turns."]])
           (rng w'))
  | (Raise e, w') => SpectralCard.apply_effect card w = (Raise e, w')
  end.
Proof.
  intros card. subst card.
  unfold SpectralCard.apply_effect, SpectralCard.__init__; cbn.
  destruct (effect_function w) as [[[]|e] w'] eqn:E.
  - by rewrite (bind_ok _ _ _ _ _ E).
  - by rewrite (bind_raise _ _ _ _ _ E).
Qed.

(** ** Boss escalation, continued *)

Lemma ticks_until_fire (w : World BossBlinds.t) :
  let b := target w in
  let threshold := BossBlinds.difficulty_level b * BossBlinds.escalation_rate b in
  BossBlinds.boss_mode_active b = true →
  BossBlinds.round_counter b < threshold →
  ∃ out,
    repeat_call (Z.to_nat (threshold - BossBlinds.round_counter b))
      BossBlinds.increase_boss_blinds w =
    (Ok tt, mkWorld
              (BossBlinds.mk
                 (Z.min (BossBlinds.small_blind b + 5) (BossBlinds.max_blind_cap b))
                 (Z.min (BossBlinds.big_blind b + 5) (BossBlinds.max_blind_cap b))
                 (BossBlinds.escalation_rate b) (BossBlinds.max_blind_cap b)
                 (BossBlinds.difficulty_level b) (BossBlinds.special_rules b)
                 0 true)
              out (rng w)).
Proof.
  intros b threshold Hon Hlt.
  set (rc := BossBlinds.round_counter b) in *.
  replace (Z.to_nat (threshold - rc))
    with (Z.to_nat (threshold - rc - 1) + 1)%nat by lia.
  pose proof (ticks_below (Z.to_nat (threshold - rc - 1)) w) as Hk.
  cbv zeta in Hk. fold b rc threshold in Hk.
  rewrite (repeat_call_add _ _ _ _ _ (Hk Hon ltac:(lia))).
  set (w' := mkWorld _ _ _).
  destruct (increase_fires w') as [out' Hfire];
    [done|cbn; fold threshold; lia|].
  exists out'. by rewrite (repeat_call_one _ _ _ Hfire).
Qed.

Lemma activate_run (w : World BossBlinds.t) :
  BossBlinds.activate_boss_mode w =
    (Ok tt, mkWorld (BossBlinds.set_boss_mode_active true (target w))
              (stdout w ++ [[Lit "Boss Blinds Mode activated!"]]) (rng w)).
Proof. reflexivity. Qed.

Lemma deactivate_run (w : World BossBlinds.t) :
  BossBlinds.deactivate_boss_mode w =
    (Ok tt, mkWorld (BossBlinds.set_boss_mode_active false (target w))
              (stdout w ++ [[Lit "Boss Blinds Mode deactivated!"]]) (rng w)).
Proof. reflexivity. Qed.

(** X10.  Deactivating does not reset the round counter, and ticks
    made while inactive are not counted: on an active [BossBlinds] with
    [round_counter = 0], [k] ticks (fewer than the threshold), then
    [deactivate_boss_mode], any number [j] of ticks, [activate_boss_mode]
    and the remaining [threshold - k] ticks end in the same escalated
    object as [threshold] uninterrupted ticks. *)
Theorem BossBlinds_pause_keeps_progress (b : BossBlinds.t) (k j : nat) out r :
  let threshold :=
    BossBlinds.difficulty_level b * BossBlinds.escalation_rate b in
  BossBlinds.boss_mode_active b = true →
  BossBlinds.round_counter b = 0 →
  Z.of_nat k < threshold →
  let script :=
    repeat_call k BossBlinds.increase_boss_blinds;;
    BossBlinds.deactivate_boss_mode;;
    repeat_call j BossBlinds.increase_boss_blinds;;
    BossBlinds.activate_boss_mode;;
    repeat_call (Z.to_nat (threshold - Z.of_nat k))
      BossBlinds.increase_boss_blinds in
  let outcome := script (mkWorld b out r) in
  outcome.1 = Ok tt ∧
  target outcome.2 =
    BossBlinds.mk
      (Z.min (BossBlinds.small_blind b + 5) (BossBlinds.max_blind_cap b))
      (Z.min (BossBlinds.big_blind b + 5) (BossBlinds.max_blind_cap b))
      (BossBlinds.escalation_rate b) (BossBlinds.max_blind_cap b)
      (BossBlinds.difficulty_level b) (BossBlinds.special_rules b) 0 true.
Proof.
  intros threshold Hon Hzero Hk script outcome. subst outcome script.
  pose proof (ticks_below k (mkWorld b out r)) as Hticks.
  cbv zeta in Hticks. cbn [target stdout rng] in Hticks.
  fold threshold in Hticks. rewrite Hzero in Hticks.
  rewrite (bind_ok _ _ _ _ _ (Hticks Hon ltac:(lia))).
  rewrite (bind_ok _ _ _ _ _ (deactivate_run _)). cbn [target stdout rng].
  match goal with
  | |- context [(repeat_call j _ ≫= _) ?v] =>
      rewrite (bind_ok _ _ _ _ _ (ticks_inactive j v eq_refl))
  end.
  rewrite (bind_ok _ _ _ _ _ (activate_run _)). cbn [target stdout rng].
  set (w' := mkWorld _ _ _).
  destruct (ticks_until_fire w') as [out' Hfire].
  - reflexivity.
  - cbn. fold threshold. lia.
  - cbn in Hfire. fold threshold in Hfire.
    replace (threshold - (0 + Z.of_nat k)) with (threshold - Z.of_nat k)
      in Hfire by lia.
    rewrite Hfire. done.
Qed.

Lemma BossBlinds_pause_keeps_progress_witness :
  let b := sample_boss 3 true in
  let script :=
    repeat_call 4 BossBlinds.increase_boss_blinds;;
    BossBlinds.deactivate_boss_mode;;
    repeat_call 9 BossBlinds.increase_boss_blinds;;
    BossBlinds.activate_boss_mode;;
    repeat_call 2 BossBlinds.increase_boss_blinds in
  (script (sample_world b)).1 = Ok tt ∧
  BossBlinds.small_blind (target (script (sample_world b)).2) = 15 ∧
  BossBlinds.big_blind (target (script (sample_world b)).2) = 25.
Proof.
  intros b script.
  destruct (BossBlinds_pause_keeps_progress b 4 9 [] (λ i, i))
    as [Hok Hfinal]; [reflexivity|reflexivity|vm_compute; reflexivity|].
  split; [exact Hok|]. split.
  - exact (f_equal BossBlinds.small_blind Hfinal).
  - exact (f_equal BossBlinds.big_blind Hfinal).
Defined.

Lemma one_cycle (w : World BossBlinds.t) :
  let b := target w in
  let threshold := BossBlinds.difficulty_level b * BossBlinds.escalation_rate b in
  BossBlinds.boss_mode_active b = true →
  BossBlinds.round_counter b = 0 →
  ∃ out,
    repeat_call (Z.to_nat (Z.max 1 threshold))
      BossBlinds.increase_boss_blinds w =
    (Ok tt, mkWorld
              (BossBlinds.mk
                 (Z.min (BossBlinds.small_blind b + 5) (BossBlinds.max_blind_cap b))
                 (Z.min (BossBlinds.big_blind b + 5) (BossBlinds.max_blind_cap b))
                 (BossBlinds.escalation_rate b) (BossBlinds.max_blind_cap b)
                 (BossBlinds.difficulty_level b) (BossBlinds.special_rules b)
                 0 true)
              out (rng w)).
Proof.
  intros b threshold Hon Hzero.
  destruct (Z.le_gt_cases threshold 1) as [Hsmall|Hbig].
  - replace (Z.to_nat (Z.max 1 threshold)) with 1%nat by lia.
    destruct (increase_fires w) as [out Hfire];
      [done|fold b threshold; lia|].
    exists out. by apply repeat_call_one.
  - destruct (ticks_until_fire w) as [out Hfire];
      [done|fold b threshold; lia|].
    exists out. fold b threshold in Hfire. rewrite Hzero in Hfire.
    by replace (Z.max 1 threshold) with (threshold - 0) by lia.
Qed.

(** X11.  On an active [BossBlinds] with [round_counter = 0], let the
    period be the threshold [difficulty_level * escalation_rate], or 1
    when that product is below 1 (every tick then escalates).  After
    [n + 1] periods of ticks each blind is the minimum of its starting
    value plus [5 * (n + 1)] and [max_blind_cap], the counter is 0 and
    nothing else has changed: the blinds climb in steps of 5 and stop
    at the cap. *)
Theorem BossBlinds_periodic_escalation (b : BossBlinds.t) (n : nat) out r :
  let period :=
    Z.to_nat (Z.max 1 (BossBlinds.difficulty_level b
                       * BossBlinds.escalation_rate b)) in
  BossBlinds.boss_mode_active b = true →
  BossBlinds.round_counter b = 0 →
  let outcome :=
    repeat_call (S n * period) BossBlinds.increase_boss_blinds
      (mkWorld b out r) in
  outcome.1 = Ok tt ∧
  target outcome.2 =
    BossBlinds.mk
      (Z.min (BossBlinds.small_blind b + 5 * (Z.of_nat n + 1))
             (BossBlinds.max_blind_cap b))
      (Z.min (BossBlinds.big_blind b + 5 * (Z.of_nat n + 1))
             (BossBlinds.max_blind_cap b))
      (BossBlinds.escalation_rate b) (BossBlinds.max_blind_cap b)
      (BossBlinds.difficulty_level b) (BossBlinds.special_rules b) 0 true.
Proof.
  intros period Hon Hzero. revert b out Hon Hzero period.
  induction n as [|n IH]; intros b out Hon Hzero period outcome; subst outcome.
  - destruct (one_cycle (mkWorld b out r) Hon Hzero) as [out' Hcycle].
    cbn [target rng] in Hcycle. fold period in Hcycle.
    rewrite Nat.mul_1_l, Hcycle. done.
  - destruct (one_cycle (mkWorld b out r) Hon Hzero) as [out' Hcycle].
    cbn [target rng] in Hcycle. fold period in Hcycle.
    replace (S (S n) * period)%nat with (period + S n * period)%nat by lia.
    rewrite (repeat_call_add _ _ _ _ _ Hcycle).
    set (b1 := BossBlinds.mk _ _ _ _ _ _ _ _).
    destruct (IH b1 out' eq_refl eq_refl) as [Hok Hfinal].
    cbn [BossBlinds.difficulty_level BossBlinds.escalation_rate b1]
      in Hok, Hfinal.
    fold period in Hok, Hfinal. split; [exact Hok|].
    rewrite Hfinal. cbn. f_equal; lia.
Qed.

Lemma BossBlinds_periodic_escalation_witness :
  let saturated :=
    target (repeat_call 200 BossBlinds.increase_boss_blinds
              (sample_world (sample_boss 0 true))).2 in
  BossBlinds.small_blind saturated = 100 ∧
  BossBlinds.big_blind saturated = 100.
Proof.
  destruct (BossBlinds_periodic_escalation (sample_boss 0 true) 199 []
              (λ i, i)) as [_ Hfinal]; [reflexivity|reflexivity|].
  split.
  - exact (f_equal BossBlinds.small_blind Hfinal).
  - exact (f_equal BossBlinds.big_blind Hfinal).
Defined.

(** X12.  Whatever calls are made on a [BossBlinds] object after its
    construction, the sequence runs to its end or stops at an
    [OverflowError] raised by an [apply_boss_rules] call, and in the
    state it leaves [escalation_rate], [max_blind_cap],
    [difficulty_level] and [special_rules] have their constructor
    values, and [round_counter] is non-negative and either 0 or below
    the threshold [difficulty_level * escalation_rate]. *)
Theorem BossBlinds_configuration_fixed
    (small_blind big_blind escalation_rate max_blind_cap : Z)
    (difficulty_level : option Z)
    (special_rules : option (list (string * num)))
    (calls : list boss_call) (g : Ledger.t) out r :
  let b := BossBlinds.__init__ small_blind big_blind escalation_rate
             max_blind_cap difficulty_level special_rules in
  let outcome := for_each calls invoke (mkWorld (b, g) out r) in
  let b' := (target outcome.2).1 in
  (outcome.1 = Ok tt ∨
   (CallApplyRules ∈ calls ∧ outcome.1 = Raise OverflowError)) ∧
  BossBlinds.escalation_rate b' = escalation_rate ∧
  BossBlinds.max_blind_cap b' = max_blind_cap ∧
  BossBlinds.difficulty_level b' = default 1 difficulty_level ∧
  BossBlinds.special_rules b' = default [] special_rules ∧
  0 ≤ BossBlinds.round_counter b' ∧
  (BossBlinds.round_counter b' = 0 ∨
   BossBlinds.round_counter b' <
     default 1 difficulty_level * escalation_rate).
Proof.
  intros b outcome b'. subst b' outcome.
  destruct (invoke_sequence
              (λ x, BossBlinds.escalation_rate x = escalation_rate ∧
                    BossBlinds.max_blind_cap x = max_blind_cap ∧
                    BossBlinds.difficulty_level x = default 1 difficulty_level ∧
                    BossBlinds.special_rules x = default [] special_rules ∧
                    0 ≤ BossBlinds.round_counter x ∧
                    (BossBlinds.round_counter x = 0 ∨
                     BossBlinds.round_counter x <
                       default 1 difficulty_level * escalation_rate))
              ) with (calls := calls) (w := mkWorld (b, g) out r)
    as (w' & Hrun & H).
  - intros x x' (Hr & Hc & Hd & Hs & Hpos & Hrc)
      [[flag ->]|[(_ & Hlt & ->)|[(_ & _ & ->)| ->]]]; cbn;
      rewrite ?Hr, ?Hc, ?Hd, ?Hs in *; repeat split; auto; try lia.
  - cbn. repeat split; auto; lia.
  - destruct Hrun as [->|[Hin ->]]; (split; [|done]); [by left|by right].
Qed.

(** X13.  From any state whose blinds are within the cap, no sequence
    of calls lowers a blind: the sequence runs to its end or stops at an
    [OverflowError] raised by an [apply_boss_rules] call, and in the
    state it leaves [small_blind] and [big_blind] are at least what they
    were (and still within the cap). *)
Theorem BossBlinds_blinds_never_drop (calls : list boss_call)
    (w : World (BossBlinds.t * Ledger.t)) :
  let b := (target w).1 in
  blinds_capped b →
  let outcome := for_each calls invoke w in
  let b' := (target outcome.2).1 in
  (outcome.1 = Ok tt ∨
   (CallApplyRules ∈ calls ∧ outcome.1 = Raise OverflowError)) ∧
  BossBlinds.small_blind b ≤ BossBlinds.small_blind b' ∧
  BossBlinds.big_blind b ≤ BossBlinds.big_blind b' ∧
  blinds_capped b'.
Proof.
  intros b Hcap outcome b'. subst b' outcome.
  destruct (invoke_sequence
              (λ x, BossBlinds.small_blind b ≤ BossBlinds.small_blind x ∧
                    BossBlinds.big_blind b ≤ BossBlinds.big_blind x ∧
                    blinds_capped x))
    with (calls := calls) (w := w) as (w' & Hrun & H).
  - intros x x' (Hs & Hb & [Hcs Hcb])
      [[flag ->]|[(_ & _ & ->)|[(_ & _ & ->)| ->]]];
      unfold blinds_capped; cbn; (split; [|split; [|split]]); lia.
  - subst b. split; [lia|]. split; [lia|exact Hcap].
  - destruct Hrun as [->|[Hin ->]]; (split; [|done]); [by left|by right].
Qed.

Lemma BossBlinds_blinds_never_drop_witness :
  let w :=
    sample_world
      (BossBlinds.__init__ 95 99 1 100 None None, sample_ledger) in
  let outcome :=
    for_each [CallActivate; CallIncrease; CallIncrease; CallDeactivate]
      invoke w in
  95 ≤ BossBlinds.small_blind (target outcome.2).1 ∧
  99 ≤ BossBlinds.big_blind (target outcome.2).1.
Proof.
  destruct (BossBlinds_blinds_never_drop
              [CallActivate; CallIncrease; CallIncrease; CallDeactivate]
              (sample_world
                 (BossBlinds.__init__ 95 99 1 100 None None, sample_ledger)))
    as (_ & Hsmall & Hbig & _).
  - split; vm_compute; discriminate.
  - split; [exact Hsmall|exact Hbig].
Defined.

Lemma apply_boss_rules_sets_bet (self : BossBlinds.t) (w w' : World Ledger.t) :
  BossBlinds.apply_boss_rules self w = (Ok tt, w') →
  (∃ value, ("double_bet", value) ∈ BossBlinds.special_rules self) →
  Ledger.double_bet (target w') = true.
Proof.
  intros Hrun [value Hin]. unfold BossBlinds.apply_boss_rules in Hrun.
  revert w Hrun Hin.
  induction (BossBlinds.special_rules self) as [|[rule x] rules IH];
    intros w Hrun Hin; [by apply not_elem_of_nil in Hin|].
  cbn [for_each] in Hrun. unfold mbind at 1, M_bind at 1 in Hrun.
  match type of Hrun with
  | (let (_, _) := ?step in _) = _ =>
      destruct step as [[[]|e] w1] eqn:Hstep; [|done]
  end.
  apply elem_of_cons in Hin as [Hhead|Hin]; [|by eapply IH].
  injection Hhead as <- <-.
  rewrite bool_decide_eq_false_2, bool_decide_eq_true_2 in Hstep by done.
  injection Hstep as <-.
  destruct (apply_boss_rules_outcome (BossBlinds.mk 0 0 0 0 0 rules 0 false)
              (mkWorld (Ledger.set_double_bet true (target w))
                 (stdout w ++ [[Lit "Boss Mode: All bets are doubled!"]])
                 (rng w)))
    as (w2 & Hrest & (_&_&_&_&_&_&Hbet) & _).
  unfold BossBlinds.apply_boss_rules in Hrest.
  cbn [BossBlinds.special_rules] in Hrest.
  destruct Hrest as [[Hrest _]|[Hrest _]];
    pose proof (eq_trans (eq_sym Hrest) Hrun) as Hsame; [|done].
  injection Hsame as <-. by apply Hbet.
Qed.

(** X14.  [BossBlinds.apply_boss_rules] applies the rules in order until
    one raises.  Either it returns, having printed one line per rule, or
    it stops at the [OverflowError] of a [bonus_chips] addition, having
    printed fewer lines than there are rules.  In both cases no ledger
    field other than [chips] and [double_bet] has changed and nothing
    was drawn.  A [BossBlinds] built without rules leaves the world
    untouched; and when the call returns and the rules contain
    ["double_bet"], at whatever position, [double_bet] is true
    afterwards. *)
Theorem BossBlinds_apply_boss_rules_frame :
  (∀ (self : BossBlinds.t) (w : World Ledger.t),
     let out := BossBlinds.apply_boss_rules self w in
     let lines :=
       (length (stdout w) + length (BossBlinds.special_rules self))%nat in
     ((out.1 = Ok tt ∧ length (stdout out.2) = lines) ∨
      (out.1 = Raise OverflowError ∧ (length (stdout out.2) < lines)%nat)) ∧
     only_chips_and_bet_change (target w) (target out.2) ∧
     rng out.2 = rng w ∧
     (out.1 = Ok tt →
      (∃ value, ("double_bet", value) ∈ BossBlinds.special_rules self) →
      Ledger.double_bet (target out.2) = true)) ∧
  (∀ small_blind big_blind escalation_rate max_blind_cap difficulty_level
     (w : World Ledger.t),
     BossBlinds.apply_boss_rules
       (BossBlinds.__init__ small_blind big_blind escalation_rate
          max_blind_cap difficulty_level None) w
     = (Ok tt, w)).
Proof.
  split; [|done]. intros self w. cbv zeta.
  destruct (apply_boss_rules_outcome self w) as (w' & Hrun & Hframe & Hrng).
  split; [|split; [|split]].
  - destruct Hrun as [[-> Hlen]|[-> Hlen]]; [by left|by right].
  - by destruct Hrun as [[-> _]|[-> _]].
  - by destruct Hrun as [[-> _]|[-> _]].
  - destruct Hrun as [[Hrun _]|[Hrun _]]; rewrite Hrun; [|done].
    intros _. by apply (apply_boss_rules_sets_bet self w).
Qed.

Lemma BossBlinds_apply_boss_rules_frame_witness :
  Ledger.double_bet
    (target
       (BossBlinds.apply_boss_rules
          (BossBlinds.__init__ 10 20 3 100 None
             (Some [("double_bet", PyInt 1); ("bonus_chips", PyInt 4)]))
          (sample_world sample_ledger)).2)
  = true.
Proof.
  destruct BossBlinds_apply_boss_rules_frame as [Hany _].
  apply (Hany (BossBlinds.__init__ 10 20 3 100 None
                 (Some [("double_bet", PyInt 1); ("bonus_chips", PyInt 4)]))
              (sample_world sample_ledger)).
  - reflexivity.
  - exists (PyInt 1). apply list_elem_of_In. left. reflexivity.
Defined.

(** X15.  For an active [BossBlinds] with [difficulty_level = 1] and
    [0 <= round_counter < escalation_rate], the number [__repr__] shows
    as ["Rounds Until Next Increment"] is the number of ticks to the
    next escalation: that many ticks escalate, and any smaller number
    leaves both blinds as they are.  [__repr__] itself changes nothing. *)
Theorem BossBlinds_repr_rounds (w : World BossBlinds.t) :
  let b := target w in
  BossBlinds.difficulty_level b = 1 →
  BossBlinds.boss_mode_active b = true →
  0 ≤ BossBlinds.round_counter b < BossBlinds.escalation_rate b →
  ∃ shown : nat,
    BossBlinds.__repr__ w =
      (Ok [Lit "<BossBlinds: Small Blind = ";
           Num (PyInt (BossBlinds.small_blind b));
           Lit ", Big Blind = "; Num (PyInt (BossBlinds.big_blind b));
           Lit ", Rounds Until Next Increment = ";
           Num (PyInt (Z.of_nat shown));
           Lit ", Difficulty Level = "; Num (PyInt 1);
           Lit ", Max Blind Cap = "; Num (PyInt (BossBlinds.max_blind_cap b));
           Lit ">"], w) ∧
    escalates_after b shown ∧
    ∀ k : nat, (k < shown)%nat → blinds_unchanged_after b k.
Proof.
  intros b Hone Hon Hrc.
  exists (Z.to_nat (BossBlinds.escalation_rate b - BossBlinds.round_counter b)).
  split; [|split].
  - unfold BossBlinds.__repr__; run. fold b. rewrite Hone.
    by rewrite Z2Nat.id by lia.
  - intros out r.
    destruct (ticks_until_fire (mkWorld b out r)) as [out' Hfire];
      [done|cbn; lia|].
    cbn [target rng] in Hfire. rewrite Hone, Z.mul_1_l in Hfire.
    cbv zeta. rewrite Hfire. by repeat split.
  - intros k Hk out r.
    rewrite (ticks_below k (mkWorld b out r)); cbn; [done|done|lia].
Qed.

Lemma BossBlinds_repr_rounds_witness :
  let b := BossBlinds.mk 10 20 4 100 1 [] 1 true in
  escalates_after b 3 ∧ blinds_unchanged_after b 2.
Proof.
  intros b.
  destruct (BossBlinds_repr_rounds (sample_world b))
    as (shown & Hrepr & Hfull & Hless);
    [reflexivity|reflexivity|cbn; lia|].
  assert (shown = 3%nat) as ->.
  { unfold BossBlinds.__repr__ in Hrepr. cbn in Hrepr.
    injection Hrepr as Hshown. lia. }
  split; [exact Hfull|]. apply Hless. lia.
Defined.

(** * Further properties of the game states *)

(** X16.  [__repr__] of a freshly constructed [GameState] returns its
    line, showing [visits=0] and [value=0.0], and changes nothing.  On
    a freshly constructed [PlayState] or [BuyState] the inherited
    [__repr__] raises [AttributeError] for [state_type], the first
    attribute it reads. *)
Theorem repr_of_fresh_states :
  (∀ state_type parent out r,
     let w := mkWorld (GameState.__init__ state_type parent) out r in
     GameState.__repr__ w =
       (Ok [Lit "<GameState type="; Str state_type; Lit " visits=";
            Num (PyInt 0); Lit " value="; Num (PyFloat (Q2Qc 0.0)); Lit ">"],
        w)) ∧
  (∀ hand chips multiplier required_score current_score rounds_remaining
     jokers active_buffs out r,
     let w := mkWorld (PlayState.__init__ hand chips multiplier required_score
                         current_score rounds_remaining jokers active_buffs)
                out r in
     PlayState.__repr__ w = (Raise (AttributeError "state_type"), w)) ∧
  (∀ shop_items money jokers_owned rerolls_remaining shop_level out r,
     let w := mkWorld (BuyState.__init__ shop_items money jokers_owned
                         rerolls_remaining shop_level) out r in
     BuyState.__repr__ w = (Raise (AttributeError "state_type"), w)).
Proof. by repeat split. Qed.

(** ** BuyState, continued *)

Lemma num_le_trans (a b c : num) : num_le a b → num_le b c → num_le a c.
Proof. unfold num_le. apply Qcle_trans. Qed.

Lemma filter_nil_iff {A} (P : A → Prop) `{∀ x, Decision (P x)} (l : list A) :
  filter P l = [] ↔ ∀ x, x ∈ l → ¬ P x.
Proof.
  split.
  - intros E x Hin HP.
    assert (x ∈ filter P l) as Hf by (by apply list_elem_of_filter).
    rewrite E in Hf. by apply not_elem_of_nil in Hf.
  - intros Hnone. induction l as [|x l IH]; [done|].
    rewrite filter_cons_False by (apply Hnone; left).
    apply IH. intros y Hy. apply Hnone. by right.
Qed.

Lemma filter_all {A} (P : A → Prop) `{∀ x, Decision (P x)} (l : list A) :
  (∀ x, x ∈ l → P x) → filter P l = l.
Proof.
  intros Hall. induction l as [|x l IH]; [done|].
  rewrite filter_cons_True by (apply Hall; left).
  f_equal. apply IH. intros y Hy. apply Hall. by right.
Qed.

Lemma filter_weaken_sublist {A} (P Q : A → Prop)
    `{∀ x, Decision (P x)} `{∀ x, Decision (Q x)} (l : list A) :
  (∀ x, P x → Q x) → filter P l `sublist_of` filter Q l.
Proof.
  intros HPQ. induction l as [|x l IH]; [done|].
  destruct (decide (P x)) as [HP|HP].
  - rewrite (filter_cons_True P) by done.
    rewrite (filter_cons_True Q) by auto. by constructor.
  - rewrite (filter_cons_False P) by done.
    destruct (decide (Q x)).
    + rewrite (filter_cons_True Q) by done. by constructor.
    + by rewrite (filter_cons_False Q) by done.
Qed.

(** X17.  [BuyState.is_terminal] returns a boolean and changes nothing;
    the boolean is true exactly when [money <= 0] or the shop list is
    empty.  In a terminal state whose items all have a positive cost,
    [get_actions] returns the empty list. *)
Theorem BuyState_is_terminal_spec (w : World BuyState.t) :
  let self := target w in
  ∃ b : bool,
    BuyState.is_terminal w = (Ok b, w) ∧
    (b = true ↔
       num_le (BuyState.money self) (PyInt 0) ∨ BuyState.shop_items self = []) ∧
    (b = true →
     (∀ item, item ∈ BuyState.shop_items self →
              ¬ num_le (BuyState.cost item) (PyInt 0)) →
     BuyState.get_actions w = (Ok [], w)).
Proof.
  intros self. eexists. split; [reflexivity|]. fold self.
  rewrite orb_true_iff, !bool_decide_eq_true. split; [done|].
  intros Hterm Hpos. rewrite BuyState_get_actions_run. fold self.
  replace (filter _ _) with (@nil BuyState.item); [done|].
  symmetry. apply filter_nil_iff. intros item Hin Hle.
  destruct Hterm as [Hbroke|Hempty].
  - apply (Hpos item Hin). by eapply num_le_trans.
  - rewrite Hempty in Hin. by apply not_elem_of_nil in Hin.
Qed.

Lemma BuyState_is_terminal_spec_witness :
  BuyState.get_actions
    (sample_world (BuyState.__init__ sample_shop (PyInt 0) [] 0 1))
  = (Ok [], sample_world (BuyState.__init__ sample_shop (PyInt 0) [] 0 1)).
Proof.
  destruct (BuyState_is_terminal_spec
              (sample_world (BuyState.__init__ sample_shop (PyInt 0) [] 0 1)))
    as (b & Hrun & Hiff & Hnone).
  apply Hnone.
  - apply Hiff. left. apply (bool_decide_eq_true_1 _). reflexivity.
  - intros item Hin. apply list_elem_of_In in Hin. cbn in Hin.
    destruct Hin as [<-|[<-|[]]]; apply (bool_decide_eq_false_1 _);
      reflexivity.
Defined.

(** X18.  More money never removes an action: for the same shop list,
    the actions available with less money are a sublist (same order) of
    the actions available with more. *)
Theorem BuyState_get_actions_monotone (w1 w2 : World BuyState.t) :
  BuyState.shop_items (target w1) = BuyState.shop_items (target w2) →
  num_le (BuyState.money (target w1)) (BuyState.money (target w2)) →
  ∃ actions1 actions2,
    BuyState.get_actions w1 = (Ok actions1, w1) ∧
    BuyState.get_actions w2 = (Ok actions2, w2) ∧
    actions1 `sublist_of` actions2.
Proof.
  intros Hshop Hmoney. do 2 eexists.
  split; [apply BuyState_get_actions_run|].
  split; [apply BuyState_get_actions_run|].
  cbv zeta. rewrite Hshop. apply fmap_sublist, filter_weaken_sublist.
  intros item Hle. by eapply num_le_trans.
Qed.

Lemma BuyState_get_actions_monotone_witness :
  ∃ actions1 actions2,
    BuyState.get_actions
      (sample_world (BuyState.__init__ sample_shop (PyInt 10) [] 0 1))
    = (Ok actions1,
       sample_world (BuyState.__init__ sample_shop (PyInt 10) [] 0 1)) ∧
    BuyState.get_actions
      (sample_world (BuyState.__init__ sample_shop (PyInt 60) [] 2 1))
    = (Ok actions2,
       sample_world (BuyState.__init__ sample_shop (PyInt 60) [] 2 1)) ∧
    actions1 `sublist_of` actions2.
Proof.
  apply (BuyState_get_actions_monotone
           (sample_world (BuyState.__init__ sample_shop (PyInt 10) [] 0 1))
           (sample_world (BuyState.__init__ sample_shop (PyInt 60) [] 2 1))).
  - reflexivity.
  - apply (bool_decide_eq_true_1 _). reflexivity.
Defined.

(** X19.  Every action is the name of a shop item: the list returned by
    [get_actions] is a sublist of the shop's names.  It is the whole
    list of names when every item costs at most the money, and empty
    when every item costs more. *)
Theorem BuyState_get_actions_bounds (w : World BuyState.t) :
  let self := target w in
  ∃ actions,
    BuyState.get_actions w = (Ok actions, w) ∧
    actions `sublist_of` (BuyState.name <$> BuyState.shop_items self) ∧
    ((∀ item, item ∈ BuyState.shop_items self →
              num_le (BuyState.cost item) (BuyState.money self)) →
     actions = BuyState.name <$> BuyState.shop_items self) ∧
    ((∀ item, item ∈ BuyState.shop_items self →
              ¬ num_le (BuyState.cost item) (BuyState.money self)) →
     actions = []).
Proof.
  intros self. eexists. split; [apply BuyState_get_actions_run|].
  fold self. split; [|split].
  - apply fmap_sublist, sublist_filter.
  - intros Hall. by rewrite filter_all.
  - intros Hnone. by rewrite (proj2 (filter_nil_iff _ _) Hnone).
Qed.

Lemma BuyState_get_actions_bounds_witness :
  (BuyState.get_actions
     (sample_world (BuyState.__init__ sample_shop (PyInt 50) [] 0 1))).1
  = Ok ["A"; "B"] ∧
  (BuyState.get_actions
     (sample_world (BuyState.__init__ sample_shop (PyInt 4) [] 0 1))).1
  = Ok [].
Proof.
  destruct (BuyState_get_actions_bounds
              (sample_world (BuyState.__init__ sample_shop (PyInt 50) [] 0 1)))
    as (a1 & -> & _ & Hall & _).
  destruct (BuyState_get_actions_bounds
              (sample_world (BuyState.__init__ sample_shop (PyInt 4) [] 0 1)))
    as (a2 & -> & _ & _ & Hnone).
  split; cbn [fst]; f_equal.
  - apply Hall. intros item Hin. apply list_elem_of_In in Hin. cbn in Hin.
    destruct Hin as [<-|[<-|[]]]; apply (bool_decide_eq_true_1 _);
      reflexivity.
  - apply Hnone. intros item Hin. apply list_elem_of_In in Hin. cbn in Hin.
    destruct Hin as [<-|[<-|[]]]; apply (bool_decide_eq_false_1 _);
      reflexivity.
Defined.

Lemma num_truediv_ten_cases (a : num) :
  num_truediv a (PyInt 10) = Raise OverflowError ∨
  ∃ q, num_truediv a (PyInt 10) = Ok (PyFloat q).
Proof.
  destruct a as [c|q].
  - destruct (num_truediv_ten_int c) as [[_ ->]|[_ ->]]; eauto.
  - rewrite num_truediv_ten_float. eauto.
Qed.

(** X20.  [BuyState.simulate] prints nothing and leaves the [BuyState]
    object alone.  Its outcome is the int 0 exactly when [get_actions]
    is empty, and then it draws nothing from the random source;
    otherwise it consumes exactly one draw and its outcome is that of
    [cost / 10] for a shop item whose name is among the actions: a
    float, or [OverflowError]. *)
Theorem BuyState_simulate_matches_actions (w : World BuyState.t) :
  ∃ (outcome : res num) (actions : list string) (w' : World BuyState.t),
    BuyState.simulate w = (outcome, w') ∧
    BuyState.get_actions w = (Ok actions, w) ∧
    target w' = target w ∧
    stdout w' = stdout w ∧
    (actions = [] ↔ outcome = Ok (PyInt 0)) ∧
    (actions = [] → rng w' = rng w) ∧
    (actions ≠ [] →
     rng w' = (λ i, rng w (S i)) ∧
     ∃ item,
       item ∈ BuyState.shop_items (target w) ∧
       BuyState.name item ∈ actions ∧
       outcome = num_truediv (BuyState.cost item) (PyInt 10) ∧
       (outcome = Raise OverflowError ∨ ∃ q, outcome = Ok (PyFloat q))).
Proof.
  set (self := target w).
  set (affordable :=
         filter (λ item, num_le (BuyState.cost item) (BuyState.money self))
                (BuyState.shop_items self)).
  destruct (decide (affordable = [])) as [Hnil|Hcons].
  - exists (Ok (PyInt 0)), [], w.
    split; [by apply BuyState_simulate_none|].
    split; [rewrite BuyState_get_actions_run; fold self affordable;
            by rewrite Hnil|].
    by repeat split.
  - destruct (BuyState_simulate_some w Hcons) as (item & Hin & Hrun).
    fold self in Hrun. fold self affordable in Hin.
    assert (BuyState.name <$> affordable ≠ []) as Hactions.
    { intros E. apply fmap_nil_inv in E. done. }
    pose proof (num_truediv_ten_cases (BuyState.cost item)) as Hcases.
    eexists _, (BuyState.name <$> affordable), _.
    split; [exact Hrun|]. split; [apply BuyState_get_actions_run|].
    split; [done|]. split; [done|]. split; [|split; [done|]].
    + split; [done|]. intros Hzero.
      destruct Hcases as [E|[q E]]; rewrite E in Hzero; discriminate.
    + intros _. split; [done|]. exists item.
      split; [by apply list_elem_of_filter in Hin as [_ ?]|].
      split; [by apply list_elem_of_fmap_2|]. by split.
Qed.

Lemma BuyState_simulate_matches_actions_witness :
  (∃ w', BuyState.simulate
           (sample_world (BuyState.__init__ sample_shop (PyInt 1) [] 0 1))
         = (Ok (PyInt 0), w') ∧ rng w' = (λ i, i)) ∧
  (∃ q w', BuyState.simulate
             (sample_world (BuyState.__init__ sample_shop (PyInt 10) [] 0 1))
           = (Ok (PyFloat q), w') ∧ rng w' = (λ i, S i)).
Proof.
  split.
  - destruct (BuyState_simulate_matches_actions
                (sample_world (BuyState.__init__ sample_shop (PyInt 1) [] 0 1)))
      as (outcome & actions & w' & Hrun & Hact & _ & _ & Hzero & Hrng & _).
    assert (actions = []) as Hnil.
    { vm_compute in Hact. by injection Hact as <-. }
    exists w'. rewrite Hrun, (proj1 Hzero Hnil). split; [reflexivity|].
    by apply Hrng.
  - destruct (BuyState_simulate_matches_actions
                (sample_world (BuyState.__init__ sample_shop (PyInt 10) [] 0 1)))
      as (outcome & actions & w' & Hrun & Hact & _ & _ & _ & _ & Hsome).
    assert (actions ≠ []) as Hcons.
    { vm_compute in Hact. by injection Hact as <-. }
    destruct (Hsome Hcons) as (Hrng & item & Hin & _ & Hout & [->|(q & ->)]).
    + exfalso. clear Hrun Hsome Hact.
      apply list_elem_of_In in Hin. cbn in Hin.
      destruct Hin as [<-|[<-|[]]];
        cbn [BuyState.cost] in Hout;
        [destruct (num_truediv_ten_int 5) as [[_ E]|[Hge _]]
        |destruct (num_truediv_ten_int 50) as [[_ E]|[Hge _]]];
        try (rewrite E in Hout; discriminate);
        vm_compute in Hge; by apply Hge.
    + exists q, w'. split; [exact Hrun|exact Hrng].
Defined.

(** ** PlayState, continued *)

(** X21.  [PlayState.simulate] never raises: it draws once from the
    random source and, whatever the draw and whatever the hand, returns
    [multiplier * 10]; the [PlayState] object and standard output are
    left as they were. *)
Theorem PlayState_simulate_spec (w : World PlayState.t) :
  PlayState.simulate w =
    (Ok (num_mul (PlayState.multiplier (target w)) (PyInt 10)),
     mkWorld (target w) (stdout w) (λ i, rng w (S i))).
Proof.
  unfold PlayState.simulate, PlayState.get_actions.
  unfold mbind at 1 2. unfold M_bind, get, mret, M_ret. cbn [fst snd].
  destruct (random_choice_run "Pair" ["Flush"; "Full House"; "Straight"] w)
    as (action & _ & Hrun).
  by rewrite (bind_ok _ _ _ _ _ Hrun).
Qed.

(** ** Hand, continued *)

(** X22.  The [Hand] constructor returns a hand exactly for the nine
    category names, and never raises [KeyError]: every name that passes
    the multiplier check has a chip entry.  A hand it returns starts at
    level 1 and carries the given name and cards and the two table
    values of that name, which are positive. *)
Theorem Hand_init_total (name : string) (cards : list Card.t) :
  (name ∈ hand_categories ↔ ∃ h, Hand.__init__ name cards = Ok h) ∧
  (∀ key, Hand.__init__ name cards ≠ Raise (KeyError key)) ∧
  (∀ h, Hand.__init__ name cards = Ok h →
        Hand.name h = name ∧ Hand.cards h = cards ∧ Hand.level h = 1 ∧
        Hand.HAND_BASE_CHIPS !! name = Some (Hand.base_chips h) ∧
        Hand.HAND_BASE_MULTIPLIERS !! name = Some (Hand.base_multiplier h) ∧
        0 < Hand.base_chips h ∧
        (0 < Hand.base_multiplier h)%Qc).
Proof.
  destruct (decide (name ∈ hand_categories)) as [Hin|Hout].
  - destruct (Hand_init_category name cards Hin) as (c & m & Hc & Hm & Hinit).
    rewrite Hinit. split; [|split].
    + split; [by eexists|done].
    + done.
    + intros h [= <-]. cbn. repeat (split; [done|]).
      destruct (HAND_BASE_MULTIPLIERS_halves name m Hm) as (k & Hk & ->).
      split.
      * apply list_elem_of_In in Hin. cbn in Hin.
        repeat (destruct Hin as [<-|Hin]; [by injection Hc as <-|]).
        destruct Hin.
      * unfold Qcdiv. apply Qcmult_pos_pos.
        -- rewrite <- Z2Qc_inj_0. apply (proj1 (Z2Qc_inj_lt 0 k)). lia.
        -- apply Qcinv_pos. reflexivity.
  - pose proof (proj2 (HAND_BASE_MULTIPLIERS_None name) Hout) as Hnone.
    unfold Hand.__init__. rewrite Hnone. split; [|done].
    split; [done|]. by intros [h ?].
Qed.

Lemma Hand_init_total_witness :
  ∃ h, Hand.__init__ "Flush" [] = Ok h ∧
       Hand.level h = 1 ∧ 0 < Hand.base_chips h.
Proof.
  destruct (Hand_init_total "Flush" []) as (Hiff & _ & Hfields).
  destruct (proj1 Hiff) as [h Hh].
  { apply list_elem_of_In. vm_compute. tauto. }
  exists h. split; [exact Hh|].
  destruct (Hfields h Hh) as (_ & _ & Hlevel & _ & _ & Hchips & _).
  split; [exact Hlevel|exact Hchips].
Defined.

Lemma Hand_level_up_log_run (N : nat) (w : World Hand.t) :
  let h := target w in
  repeat_call N Hand.level_up w =
    (Ok tt,
     mkWorld (Hand.set_level (Hand.level h + Z.of_nat N) h)
       (stdout w ++
        ((λ l, [Str (Hand.name h); Lit " leveled up to Level ";
                Num (PyInt l); Lit "!"])
           <$> seqZ (Hand.level h + 1) (Z.of_nat N)))
       (rng w)).
Proof.
  revert w. induction N as [|N IH]; intros w h.
  - cbn. rewrite Z.add_0_r, app_nil_r. subst h. by destruct w as [[] ? ?].
  - rewrite (repeat_call_S _ _ _ _ (Hand_level_up_run w)).
    rewrite IH. cbn [target stdout rng]. fold h.
    rewrite Nat2Z.inj_succ, (seqZ_cons (Hand.level h + 1)) by lia.
    rewrite Z.pred_succ, fmap_cons, <- app_assoc.
    unfold Hand.set_level; cbn.
    replace (Hand.level h + 1 + Z.of_nat N)
      with (Hand.level h + Z.succ (Z.of_nat N)) by lia.
    by replace (Hand.level h + 1 + 1) with (Z.succ (Hand.level h + 1)) by lia.
Qed.

(** X23.  [N] calls of [level_up] on a hand at level [l] leave the
    level at [l + N] and the name, cards, base chips and base multiplier
    untouched, and print one line per call announcing, in order, the
    levels [l + 1], ..., [l + N]. *)
Theorem Hand_level_up_log (h : Hand.t) (N : nat) out r :
  let outcome := repeat_call N Hand.level_up (mkWorld h out r) in
  let h' := target outcome.2 in
  outcome.1 = Ok tt ∧
  Hand.level h' = Hand.level h + Z.of_nat N ∧
  Hand.name h' = Hand.name h ∧
  Hand.cards h' = Hand.cards h ∧
  Hand.base_chips h' = Hand.base_chips h ∧
  Hand.base_multiplier h' = Hand.base_multiplier h ∧
  stdout outcome.2 =
    out ++ ((λ l, [Str (Hand.name h); Lit " leveled up to Level ";
                   Num (PyInt l); Lit "!"])
              <$> seqZ (Hand.level h + 1) (Z.of_nat N)) ∧
  rng outcome.2 = r.
Proof.
  intros outcome h'. subst h' outcome.
  rewrite (Hand_level_up_log_run N (mkWorld h out r)). by repeat split.
Qed.

(** ** Edges of the two designs *)

(** X24.  A blind that starts above the cap does not stay there: on an
    active [BossBlinds] with [round_counter = 0] whose [small_blind]
    exceeds [max_blind_cap], the first escalation lowers [small_blind]
    to the cap, and likewise for [big_blind]. *)
Theorem BossBlinds_escalation_pulls_down (b : BossBlinds.t) out r :
  let period :=
    Z.to_nat (Z.max 1 (BossBlinds.difficulty_level b
                       * BossBlinds.escalation_rate b)) in
  BossBlinds.boss_mode_active b = true →
  BossBlinds.round_counter b = 0 →
  let b' :=
    target (repeat_call period BossBlinds.increase_boss_blinds
              (mkWorld b out r)).2 in
  (BossBlinds.max_blind_cap b < BossBlinds.small_blind b →
   BossBlinds.small_blind b' = BossBlinds.max_blind_cap b ∧
   BossBlinds.small_blind b' < BossBlinds.small_blind b) ∧
  (BossBlinds.max_blind_cap b < BossBlinds.big_blind b →
   BossBlinds.big_blind b' = BossBlinds.max_blind_cap b ∧
   BossBlinds.big_blind b' < BossBlinds.big_blind b).
Proof.
  intros period Hon Hzero b'. subst b'.
  destruct (one_cycle (mkWorld b out r) Hon Hzero) as [out' Hcycle].
  cbn [target rng] in Hcycle. fold period in Hcycle. rewrite Hcycle. cbn.
  split; intros Habove; lia.
Qed.

Lemma BossBlinds_escalation_pulls_down_witness :
  let b :=
    BossBlinds.set_boss_mode_active true
      (BossBlinds.__init__ 200 300 1 100 None None) in
  let b' :=
    target (repeat_call 1 BossBlinds.increase_boss_blinds (sample_world b)).2 in
  BossBlinds.small_blind b' = 100 ∧ BossBlinds.big_blind b' = 100.
Proof.
  intros b b'.
  destruct (BossBlinds_escalation_pulls_down b [] (λ i, i))
    as [Hsmall Hbig]; [reflexivity|reflexivity|].
  destruct Hsmall as [Hs _]; [cbn; lia|].
  destruct Hbig as [Hb _]; [cbn; lia|].
  split; [exact Hs|exact Hb].
Defined.

(** X25.  [is_terminal] and [get_actions] of a [BuyState] are decided
    separately.  With positive money, a non-empty shop and every item
    costing more than the money, the state is not terminal and yet has
    no action; with [money <= 0] and some item costing at most the
    money, the state is terminal and yet offers that item. *)
Theorem BuyState_terminal_and_actions_differ (w : World BuyState.t) :
  let self := target w in
  (¬ num_le (BuyState.money self) (PyInt 0) →
   BuyState.shop_items self ≠ [] →
   (∀ item, item ∈ BuyState.shop_items self →
            ¬ num_le (BuyState.cost item) (BuyState.money self)) →
   BuyState.is_terminal w = (Ok false, w) ∧
   BuyState.get_actions w = (Ok [], w)) ∧
  (num_le (BuyState.money self) (PyInt 0) →
   ∀ item, item ∈ BuyState.shop_items self →
           num_le (BuyState.cost item) (BuyState.money self) →
   BuyState.is_terminal w = (Ok true, w) ∧
   ∃ actions, BuyState.get_actions w = (Ok actions, w) ∧
              BuyState.name item ∈ actions).
Proof.
  intros self. split.
  - intros Hmoney Hshop Hnone. split.
    + unfold BuyState.is_terminal; run. fold self.
      by rewrite !bool_decide_eq_false_2.
    + rewrite BuyState_get_actions_run. fold self.
      by rewrite (proj2 (filter_nil_iff _ _) Hnone).
  - intros Hbroke item Hin Hle. split.
    + unfold BuyState.is_terminal; run. fold self.
      by rewrite (bool_decide_eq_true_2 _ Hbroke).
    + eexists. split; [apply BuyState_get_actions_run|].
      fold self. apply list_elem_of_fmap_2, list_elem_of_filter. by split.
Qed.

Lemma BuyState_terminal_and_actions_differ_witness :
  (let w := sample_world (BuyState.__init__ sample_shop (PyInt 2) [] 0 1) in
   BuyState.is_terminal w = (Ok false, w) ∧
   BuyState.get_actions w = (Ok [], w)) ∧
  (let w :=
     sample_world
       (BuyState.__init__ [BuyState.mk_item "gift" (PyInt 0)] (PyInt 0)
          [] 0 1) in
   BuyState.is_terminal w = (Ok true, w) ∧
   ∃ actions, BuyState.get_actions w = (Ok actions, w) ∧ "gift" ∈ actions).
Proof.
  split.
  - intros w. apply (BuyState_terminal_and_actions_differ w).
    + apply (bool_decide_eq_false_1 _). reflexivity.
    + discriminate.
    + intros item Hin. apply list_elem_of_In in Hin. cbn in Hin.
      destruct Hin as [<-|[<-|[]]]; apply (bool_decide_eq_false_1 _);
        reflexivity.
  - intros w.
    destruct (BuyState_terminal_and_actions_differ w) as [_ Hbroke].
    apply (Hbroke ltac:(apply (bool_decide_eq_true_1 _); reflexivity)
             (BuyState.mk_item "gift" (PyInt 0))).
    + apply list_elem_of_In. left. reflexivity.
    + apply (bool_decide_eq_true_1 _). reflexivity.
Defined.
